(** * Digitarr: release discovery, filtering and dispatch

    A shallow embedding of the pipeline's Python sources
    ([release_checker.py], [filters.py], [overseerr_requester.py],
    [riven_requester.py], [discord_notifier.py]) and the properties the
    specification states about them.

    Conventions of the embedding.
    - A Python dictionary read with [.get] is a record whose fields are
      [field A]: the key is absent, holds [None], or holds a value.
    - "A value or [None]" is [option A]; truthiness is the class [Truthy].
    - Code that can raise returns [result A]; effectful code lives in [Eff.M],
      where [try]/[except] is [Eff.try_catch].
    - Numbers are held by their exact rational value ([Q]); Python compares
      [int] and [float] exactly, so [>=] is [Qle_bool].
    - Text is held character by character.  On ASCII text ([isascii]) the
      case mappings [str.upper] and [str.lower] move the 26 letters and
      nothing else, and that is what [upper] and [lower] do; the Unicode
      mapping of other characters is not modelled, so what is proved about
      case folding is stated for ASCII text. *)

From Stdlib Require Import List String Ascii ZArith QArith Bool Lia Permutation.
From stdpp Require Import gmap strings pretty.
Import ListNotations.

Local Open Scope string_scope.
Local Open Scope list_scope.

(** ** Python runtime fragments *)

Module Py.

(** The exception classes the sources can meet. *)
Inductive exn : Type :=
| TypeError
| AttributeError
| ValueError
| HTTPError
| RequestException
| JSONDecodeError
| RuntimeError.

(** [requests.exceptions.RequestException] and its subclasses:
    [requests.exceptions.JSONDecodeError] is both a [RequestException] and a
    [ValueError]. *)
Definition is_request_exception (e : exn) : bool :=
  match e with
  | HTTPError | RequestException | JSONDecodeError => true
  | _ => false
  end.

Inductive result (A : Type) : Type :=
| Ok (a : A)
| Raise (e : exn).
Arguments Ok {A} a.
Arguments Raise {A} e.

#[export] Instance result_ret : MRet result := fun A a => Ok a.

(** Sequencing: a raised exception skips the rest. *)
#[export] Instance result_bind : MBind result := fun A B k m =>
  match m with
  | Ok a => k a
  | Raise e => Raise e
  end.

#[export] Instance result_fmap : FMap result := fun A B f m =>
  match m with
  | Ok a => Ok (f a)
  | Raise e => Raise e
  end.

(** One entry of a dictionary, as [.get] sees it. *)
Inductive field (A : Type) : Type :=
| Absent
| Null
| Val (a : A).
Arguments Absent {A}.
Arguments Null {A}.
Arguments Val {A} a.

(** [d.get(k)] *)
Definition get {A} (f : field A) : option A :=
  match f with
  | Val a => Some a
  | Absent | Null => None
  end.

(** [d.get(k, default)] *)
Definition get_or {A} (f : field A) (default : A) : option A :=
  match f with
  | Absent => Some default
  | Null => None
  | Val a => Some a
  end.

(** The entry a dictionary literal [{k: v}] holds for a value-or-None [v]. *)
Definition store {A} (v : option A) : field A :=
  match v with
  | Some a => Val a
  | None => Null
  end.

(** Truthiness, [bool(x)]. *)
Class Truthy (A : Type) := truthy : A -> bool.
#[export] Hint Mode Truthy ! : typeclass_instances.

#[export] Instance truthy_bool : Truthy bool := fun b => b.
#[export] Instance truthy_Z : Truthy Z := fun z => negb (z =? 0)%Z.
#[export] Instance truthy_str : Truthy string :=
  fun s => match s with EmptyString => false | String _ _ => true end.
#[export] Instance truthy_list {A} : Truthy (list A) :=
  fun l => match l with [] => false | _ :: _ => true end.
#[export] Instance truthy_option {A} `{Truthy A} : Truthy (option A) :=
  fun o => match o with None => false | Some a => truthy a end.

(** [a or b] on values-or-None. *)
Definition py_or {A} `{Truthy A} (a b : option A) : option A :=
  if truthy a then a else b.

(** [str.isascii]: every character is below 128. *)
Definition isascii (s : string) : bool :=
  forallb (fun c => (N_of_ascii c <? 128)%N) (list_ascii_of_string s).

(** [str.upper] and [str.lower] on ASCII text: the letters change case and
    every other character stays.  On a character outside ASCII the Unicode
    mapping can do more ("ü" to "Ü", "ß" to "SS"); these definitions leave such
    a character as it is, so they stand for the methods on ASCII text only. *)
Definition upper_char (c : ascii) : ascii :=
  let n := N_of_ascii c in
  if (97 <=? n)%N && (n <=? 122)%N then ascii_of_N (n - 32) else c.

Definition lower_char (c : ascii) : ascii :=
  let n := N_of_ascii c in
  if (65 <=? n)%N && (n <=? 90)%N then ascii_of_N (n + 32) else c.

Fixpoint upper (s : string) : string :=
  match s with
  | EmptyString => EmptyString
  | String c s' => String (upper_char c) (upper s')
  end.

Fixpoint lower (s : string) : string :=
  match s with
  | EmptyString => EmptyString
  | String c s' => String (lower_char c) (lower s')
  end.

(** [s[:n]] *)
Fixpoint slice_to (n : nat) (s : string) : string :=
  match n, s with
  | O, _ => EmptyString
  | S _, EmptyString => EmptyString
  | S n', String c s' => String c (slice_to n' s')
  end.

Arguments slice_to : simpl never.

(** [x in l] for a list of strings. *)
Definition str_in (x : string) (l : list string) : bool :=
  existsb (String.eqb x) l.

(** [x in l] when [x] may be [None] and [l] holds strings. *)
Definition opt_str_in (x : option string) (l : list string) : bool :=
  match x with
  | Some s => str_in s l
  | None => false
  end.

(** [str(n)] for an [int]. *)
Definition str_int (n : Z) : string := pretty n.

End Py.
Export Py.


(** [for x in l: s = body(s, x)], where the body can raise. *)
Fixpoint for_each {A S : Type} (l : list A) (body : S -> A -> result S) (s : S)
  : result S :=
  match l with
  | [] => Ok s
  | x :: l' => s' ← body s x; for_each l' body s'
  end.

(** Iterating a value that may be [None]: [for x in None] raises [TypeError]. *)
Definition iter {A} (o : option (list A)) : result (list A) :=
  match o with
  | Some l => Ok l
  | None => Raise TypeError
  end.

(** Calling a method on a value that may be [None]: [None.get] raises
    [AttributeError]. *)
Definition deref {A} (o : option A) : result A :=
  match o with
  | Some a => Ok a
  | None => Raise AttributeError
  end.

(** ** HTTP and effects *)

Module Http.

Inductive method : Type := GET | POST.

(** What [requests.get] and [requests.post] are called with; [P] is the type
    of the JSON payload. *)
Record request (P : Type) : Type := mk_request {
  meth : method;
  url : string;
  params : list (string * string);
  headers : list (string * option string);
  json : option P;
  timeout : Z
}.
Arguments mk_request {P}.
Arguments meth {P}.
Arguments url {P}.
Arguments params {P}.
Arguments headers {P}.
Arguments json {P}.
Arguments timeout {P}.

(** What comes back; [body] is the decoded JSON document, [None] when the
    body is not JSON. *)
Record response (B : Type) : Type := mk_response {
  status_code : Z;
  text : string;
  body : option B
}.
Arguments mk_response {B}.
Arguments status_code {B}.
Arguments text {B}.
Arguments body {B}.

(** [response.json()]: a body that is not JSON raises
    [requests.exceptions.JSONDecodeError]. *)
Definition json_of {B} (r : response B) : result B :=
  match body r with
  | Some b => Ok b
  | None => Raise JSONDecodeError
  end.

(** [response.raise_for_status()] *)
Definition raise_for_status {B} (r : response B) : result unit :=
  if (400 <=? status_code r)%Z && (status_code r <? 600)%Z
  then Raise HTTPError
  else Ok tt.

End Http.

(** Effectful code: a computation reads the trace of events so far, may add
    to it, and returns or raises. *)
Module Eff.
Section Eff.
Context {E : Type}.

Definition M (A : Type) : Type := list E -> result A * list E.

Definition ret {A} (a : A) : M A := fun tr => (Ok a, tr).

Definition raise {A} (e : exn) : M A := fun tr => (Raise e, tr).

Definition bind {A B} (m : M A) (k : A -> M B) : M B :=
  fun tr =>
    match m tr with
    | (Ok a, tr') => k a tr'
    | (Raise e, tr') => (Raise e, tr')
    end.

(** A pure computation that can raise. *)
Definition lift {A} (r : result A) : M A := fun tr => (r, tr).

Definition emit (e : E) : M unit := fun tr => (Ok tt, tr ++ [e]).

(** A call into the outside world: the world answers from the trace so far
    and the call, and the call is recorded as [inj q]. *)
Definition call {Q R} (world : list E -> Q -> result R) (inj : Q -> E) (q : Q)
  : M R :=
  fun tr => (world tr q, tr ++ [inj q]).

(** [try: m  except Exception as e: h e] *)
Definition try_catch {A} (m : M A) (h : exn -> M A) : M A :=
  fun tr =>
    match m tr with
    | (Ok a, tr') => (Ok a, tr')
    | (Raise e, tr') => h e tr'
    end.

(** [for x in l: ...] threading the loop's variables [s]. *)
Fixpoint each {A S : Type} (l : list A) (body : S -> A -> M S) (s : S) : M S :=
  match l with
  | [] => ret s
  | x :: l' => bind (body s x) (each l' body)
  end.
End Eff.
End Eff.

Notation "'do' x <- m ; k" := (Eff.bind m (fun x => k))
  (at level 10, x name, m at level 100, k at level 200).

(** ** The data model *)

(** The catalog's movie detail document (the JSON of [GET /movie/{id}] with
    [append_to_response=release_dates]). *)
Module Tmdb.

Record release_date_entry : Type := mk_entry {
  type : field Z;
  release_date : field string;
  certification : field string
}.

Record country_releases : Type := mk_country {
  iso_3166_1 : field string;
  release_dates : field (list release_date_entry)
}.

Record release_dates_doc : Type := mk_release_dates {
  results : field (list country_releases)
}.

Record genre : Type := mk_genre {
  name : field string
}.

Record movie : Type := mk_movie {
  movie_id : field Z;
  movie_title : field string;
  movie_release_date : field string;
  movie_overview : field string;
  movie_imdb_id : field string;
  movie_vote_average : field Q;
  movie_popularity : field Q;
  movie_adult : field bool;
  movie_poster_path : field string;
  movie_original_language : field string;
  movie_genres : field (list genre);
  movie_release_dates : field release_dates_doc
}.

End Tmdb.

(** A release: the dictionary [_get_movie_with_release_dates] builds and every
    later stage reads.  Field [rtype] is the key ["type"]. *)
Record release : Type := mk_release {
  rtype : field string;
  tmdb_id : field Z;
  title : field string;
  release_date : field string;
  overview : field string;
  imdb_id : field string;
  vote_average : field Q;
  popularity : field Q;
  adult : field bool;
  poster_path : field string;
  original_language : field string;
  genres : field (list (option string));
  certification : field string
}.

(** ** release_checker.py *)

Module ReleaseChecker.

Definition RELEASE_TYPE_DIGITAL : Z := 4.

(** [x == n] for a value-or-None [x] and an [int] [n]. *)
Definition eq_int (x : option Z) (n : Z) : bool :=
  match x with
  | Some z => (z =? n)%Z
  | None => false
  end.

(** [x == s] for a value-or-None [x] and a [str] [s]. *)
Definition eq_str (x : option string) (s : string) : bool :=
  match x with
  | Some t => String.eqb t s
  | None => false
  end.

(** The loop variables [(digital_date, certification)]. *)
Definition info : Type := (option string * option string)%type.

(** Body of the inner loop, lines 137-148. *)
Definition scan_release (country : option string) (st : info)
    (release : Tmdb.release_date_entry) : info :=
  let '(digital_date, certification) := st in
  if eq_int (get (Tmdb.type release)) RELEASE_TYPE_DIGITAL then
    let release_date := get_or (Tmdb.release_date release) "" in
    let digital_date :=
      if truthy release_date && negb (truthy digital_date)
      then option_map (slice_to 10) release_date
      else digital_date in
    let cert := get_or (Tmdb.certification release) "" in
    let certification :=
      if truthy cert then
        if eq_str country "US" then cert
        else if negb (truthy certification) then cert
        else certification
      else certification in
    (digital_date, certification)
  else st.

(** Body of the outer loop, lines 135-148. *)
Definition scan_country (st : info) (country_releases : Tmdb.country_releases)
  : result info :=
  let country := get_or (Tmdb.iso_3166_1 country_releases) "" in
  releases ← iter (get_or (Tmdb.release_dates country_releases) []);
  Ok (fold_left (scan_release country) releases st).

Definition empty_doc : Tmdb.release_dates_doc :=
  {| Tmdb.results := Absent |}.

Definition _find_digital_release_info (movie : Tmdb.movie) : result info :=
  doc ← deref (get_or (Tmdb.movie_release_dates movie) empty_doc);
  release_dates ← iter (get_or (Tmdb.results doc) []);
  for_each release_dates scan_country (None, None).

(** Lines 97-117: the release built from a decoded detail document. *)
Definition build_release (movie : Tmdb.movie) : result release :=
  '(digital_release_date, certification) ← _find_digital_release_info movie;
  movie_genres ← iter (get_or (Tmdb.movie_genres movie) []);
  let genres := map (fun g => get (Tmdb.name g)) movie_genres in
  Ok {| rtype := Val "movie";
        tmdb_id := store (get (Tmdb.movie_id movie));
        title := store (get (Tmdb.movie_title movie));
        release_date :=
          store (py_or digital_release_date
                       (get (Tmdb.movie_release_date movie)));
        overview := store (get (Tmdb.movie_overview movie));
        imdb_id := store (get (Tmdb.movie_imdb_id movie));
        vote_average := store (get (Tmdb.movie_vote_average movie));
        popularity := store (get (Tmdb.movie_popularity movie));
        adult := store (get_or (Tmdb.movie_adult movie) false);
        poster_path := store (get (Tmdb.movie_poster_path movie));
        original_language :=
          store (get_or (Tmdb.movie_original_language movie) "");
        genres := Val genres;
        certification := store certification |}.

Section WithCatalog.
(** The catalog: what [requests.get] returns or raises for a request. *)
Variable catalog : Http.request unit -> result (Http.response Tmdb.movie).
Variable tmdb_api_key : string.

Definition tmdb_base_url : string := "https://api.themoviedb.org/3".

Definition detail_request (movie_id : Z) : Http.request unit :=
  {| Http.meth := Http.GET;
     Http.url := tmdb_base_url +:+ "/movie/" +:+ str_int movie_id;
     Http.params := [("api_key", tmdb_api_key);
                     ("append_to_response", "release_dates")];
     Http.headers := [];
     Http.json := None;
     Http.timeout := 10 |}.

(** [None] is the Python [None] the [except] branch returns. *)
Definition _get_movie_with_release_dates (movie_id : Z) : option release :=
  let attempt :=
    response ← catalog (detail_request movie_id);
    _ ← Http.raise_for_status response;
    movie ← Http.json_of response;
    build_release movie in
  match attempt with
  | Ok r => Some r
  | Raise _ => None
  end.
End WithCatalog.

(** The discovery document, [GET /discover/movie]: [{"results": [{"id": n},
    ...]}]; every item carries its integer identifier. *)
Record discovered : Type := mk_discovered {
  id : Z
}.

Record discover_doc : Type := mk_discover_doc {
  discover_results : field (list discovered)
}.

(** The checker: [self.tmdb_api_key], and [self.today] held by its ISO text
    ([date.isoformat()]). *)
Record checker : Type := mk_checker {
  api_key : option string;
  today : string
}.

Section WithTmdb.
(** The two endpoints of the catalog. *)
Variable discover : Http.request unit -> result (Http.response discover_doc).
Variable catalog : Http.request unit -> result (Http.response Tmdb.movie).
Variable tmdb_api_key : string.

Definition discover_request (target_date : string) : Http.request unit :=
  {| Http.meth := Http.GET;
     Http.url := tmdb_base_url +:+ "/discover/movie";
     Http.params := [("api_key", tmdb_api_key);
                     ("with_release_type", str_int RELEASE_TYPE_DIGITAL);
                     ("release_date.gte", target_date);
                     ("release_date.lte", target_date);
                     ("sort_by", "popularity.desc");
                     ("page", "1")];
     Http.headers := [];
     Http.json := None;
     Http.timeout := 10 |}.

(** [_get_movie_with_release_dates] as a step of a run: it issues its one
    request and returns what it returns. *)
Definition get_movie (movie_id : Z) : Eff.M (option release) :=
  fun tr =>
    (Ok (_get_movie_with_release_dates catalog tmdb_api_key movie_id),
     tr ++ [detail_request tmdb_api_key movie_id]).

(** Body of the loop, lines 70-75, on the loop variable [movies]. *)
Definition fetch_one (movies : list release) (movie : discovered)
  : Eff.M (list release) :=
  let movie_id := id movie in
  do movie_details <- get_movie movie_id;
  match movie_details with
  | Some details => Eff.ret (movies ++ [details])
  | None => Eff.ret movies
  end.

(** The list [movies] is empty until the loop starts and nothing in the loop
    raises, so the [except] branch returns the empty list.  It catches what
    [requests.get], [raise_for_status] and [response.json()] raise; a
    ["results"] that is [null] raises [TypeError], which it lets through. *)
Definition _fetch_digital_releases (target_date : string)
  : Eff.M (list release) :=
  Eff.try_catch
    (do response <- Eff.call (fun _ => discover) (fun q => q)
                      (discover_request target_date);
     do _ <- Eff.lift (Http.raise_for_status response);
     do data <- Eff.lift (Http.json_of response);
     do found <- Eff.lift (iter (get_or (discover_results data) []));
     Eff.each found fetch_one [])
    (fun e => if is_request_exception e then Eff.ret [] else Eff.raise e).
End WithTmdb.

Section WithTmdbEndpoints.
Variable discover : Http.request unit -> result (Http.response discover_doc).
Variable catalog : Http.request unit -> result (Http.response Tmdb.movie).

Definition get_today_releases (self : checker) : Eff.M (list release) :=
  let releases := [] in
  match api_key self with
  | Some key =>
      if negb (truthy key) then Eff.ret releases
      else
        Eff.try_catch
          (_fetch_digital_releases discover catalog key (today self))
          (fun e => Eff.ret releases)
  | None => Eff.ret releases
  end.
End WithTmdbEndpoints.

End ReleaseChecker.

(** ** filters.py *)

Module Filters.

(** The ["filters"] section of the configuration. *)
Record filters : Type := mk_filters {
  exclude_adult : field bool;
  min_tmdb_rating : field Q;
  allowed_languages : field (list string);
  excluded_genres : field (list string);
  excluded_certifications : field (list string)
}.

(** [a >= b] on numbers; [None] on either side raises [TypeError]. *)
Definition ge (a b : option Q) : result bool :=
  match a, b with
  | Some x, Some y => Ok (Qle_bool y x)
  | _, _ => Raise TypeError
  end.

(** [a > b] on numbers. *)
Definition gt (a b : option Q) : result bool :=
  match a, b with
  | Some x, Some y => Ok (negb (Qle_bool x y))
  | _, _ => Raise TypeError
  end.

(** [filtered.append(release)] when [keep] holds. *)
Definition append_if {A} (keep : bool) (filtered : list A) (x : A) : list A :=
  if keep then filtered ++ [x] else filtered.

Definition _filter_adult (releases : list release) : list release :=
  List.filter (fun r => negb (truthy (get_or (adult r) false))) releases.

Definition _filter_by_tmdb_rating (self : filters) (releases : list release)
  : result (list release) :=
  let min_rating := get_or (min_tmdb_rating self) 0%Q in
  for_each releases
    (fun filtered release =>
       let vote_average := get_or (vote_average release) 0%Q in
       keep ← ge vote_average min_rating;
       Ok (append_if keep filtered release))
    ([] : list release).

Definition _filter_by_allowed_languages (releases : list release)
    (allowed_langs : list string) : result (list release) :=
  for_each releases
    (fun filtered release =>
       let lang := get_or (original_language release) "" in
       Ok (append_if (opt_str_in lang allowed_langs) filtered release))
    ([] : list release).

(** [[g.lower() for g in genres]] *)
Definition lower_all (genres : option (list (option string)))
  : result (list string) :=
  gs ← iter genres;
  mapM (fun g => s ← deref g; Ok (lower s)) gs.

Definition _filter_by_excluded_genres (releases : list release)
    (excluded_genres : list string) : result (list release) :=
  let excluded_lower := map lower excluded_genres in
  for_each releases
    (fun filtered release =>
       let genres := get_or (genres release) [] in
       genres_lower ← lower_all genres;
       let hit := existsb (fun g => str_in g excluded_lower) genres_lower in
       Ok (append_if (negb hit) filtered release))
    ([] : list release).

(** [cert and cert.upper() in excluded_upper] *)
Definition cert_excluded (cert : option string) (excluded_upper : list string)
  : bool :=
  match cert with
  | Some c => if truthy c then str_in (upper c) excluded_upper else false
  | None => false
  end.

Definition _filter_by_excluded_certifications (releases : list release)
    (excluded_certs : list string) : result (list release) :=
  let excluded_upper := map upper excluded_certs in
  for_each releases
    (fun filtered release =>
       let cert := get_or (certification release) "" in
       Ok (append_if (negb (cert_excluded cert excluded_upper)) filtered release))
    ([] : list release).

(** A test [if xs:] on a list-or-None holds exactly for a non-empty list; the
    [match] below is that test together with the list it found. *)
Definition apply_filters (self : filters) (releases : list release)
  : result (list release) :=
  let filtered := releases in
  filtered ←
    (if truthy (get (exclude_adult self))
     then Ok (_filter_adult filtered)
     else Ok filtered);
  rating_on ← gt (get_or (min_tmdb_rating self) 0%Q) (Some 0%Q);
  filtered ←
    (if rating_on : bool
     then _filter_by_tmdb_rating self filtered
     else Ok filtered);
  let allowed_langs := get_or (allowed_languages self) [] in
  filtered ←
    match allowed_langs with
    | Some ((_ :: _) as allowed_langs) => _filter_by_allowed_languages filtered allowed_langs
    | _ => Ok filtered
    end;
  let excluded_genres := get_or (excluded_genres self) [] in
  filtered ←
    match excluded_genres with
    | Some ((_ :: _) as excluded_genres) => _filter_by_excluded_genres filtered excluded_genres
    | _ => Ok filtered
    end;
  let excluded_certs := get_or (excluded_certifications self) [] in
  filtered ←
    match excluded_certs with
    | Some ((_ :: _) as excluded_certs) => _filter_by_excluded_certifications filtered excluded_certs
    | _ => Ok filtered
    end;
  Ok filtered.

(** The five stages of [apply_filters], each with the test that guards it,
    so that they can be applied in any order. *)
Inductive stage : Type :=
| Adult
| MinRating
| AllowedLanguages
| ExcludedGenres
| ExcludedCertifications.

Definition run_stage (self : filters) (s : stage) (filtered : list release)
  : result (list release) :=
  match s with
  | Adult =>
      if truthy (get (exclude_adult self))
      then Ok (_filter_adult filtered)
      else Ok filtered
  | MinRating =>
      rating_on ← gt (get_or (min_tmdb_rating self) 0%Q) (Some 0%Q);
      if rating_on : bool then _filter_by_tmdb_rating self filtered else Ok filtered
  | AllowedLanguages =>
      let allowed_langs := get_or (allowed_languages self) [] in
      match allowed_langs with
      | Some ((_ :: _) as allowed_langs) => _filter_by_allowed_languages filtered allowed_langs
      | _ => Ok filtered
      end
  | ExcludedGenres =>
      let excluded_genres := get_or (excluded_genres self) [] in
      match excluded_genres with
      | Some ((_ :: _) as excluded_genres) => _filter_by_excluded_genres filtered excluded_genres
      | _ => Ok filtered
      end
  | ExcludedCertifications =>
      let excluded_certs := get_or (excluded_certifications self) [] in
      match excluded_certs with
      | Some ((_ :: _) as excluded_certs) => _filter_by_excluded_certifications filtered excluded_certs
      | _ => Ok filtered
      end
  end.

(** The stages applied in a given order. *)
Definition apply_in_order (self : filters) (order : list stage)
    (releases : list release) : result (list release) :=
  for_each order (fun filtered s => run_stage self s filtered) releases.

Definition fixed_order : list stage :=
  [Adult; MinRating; AllowedLanguages; ExcludedGenres; ExcludedCertifications].

End Filters.

(** ** The configuration *)

Module Config.

(** A sink's section: [{"api_url": ..., "api_key": ...}]. *)
Record credentials : Type := mk_credentials {
  api_url : field string;
  api_key : field string
}.

Record discord_section : Type := mk_discord {
  webhook_url : field string
}.

Record config : Type := mk_config {
  overseerr : field credentials;
  riven : field credentials;
  discord : field discord_section;
  filters : field Filters.filters
}.

(** The empty dictionary [{}] used as a default section. *)
Definition no_credentials : credentials :=
  {| api_url := Absent; api_key := Absent |}.

Definition no_discord : discord_section :=
  {| webhook_url := Absent |}.

End Config.

(** [FilterEngine]: the engine holds the configuration's ["filters"] section,
    [{}] when there is none, [None] when it is [null]. *)
Module FilterEngine.

Record FilterEngine : Type := mk_engine {
  filters : option Filters.filters
}.

(** The empty dictionary [{}]. *)
Definition no_settings : Filters.filters :=
  {| Filters.exclude_adult := Absent; Filters.min_tmdb_rating := Absent;
     Filters.allowed_languages := Absent; Filters.excluded_genres := Absent;
     Filters.excluded_certifications := Absent |}.

Definition __init__ (config : Config.config) : FilterEngine :=
  {| filters := get_or (Config.filters config) no_settings |}.

(** [apply_filters] on the engine: [self.filters.get] raises on [None]. *)
Definition apply_filters (self : FilterEngine) (releases : list release)
  : result (list release) :=
  settings ← deref (filters self);
  Filters.apply_filters settings releases.

End FilterEngine.

(** [f"{x}"] for a string-or-None. *)
Definition fmt (x : option string) : string :=
  match x with
  | Some s => s
  | None => "None"
  end.

(** ** overseerr_requester.py *)

Module Overseerr.

(** The part of [GET /api/v1/movie/{id}]'s document the sink reads. *)
Record media_info : Type := mk_media_info {
  status : field Z
}.

Record movie_details : Type := mk_details {
  mediaInfo : field media_info
}.

Definition no_media_info : media_info := {| status := Absent |}.

Record payload : Type := mk_payload {
  mediaId : Z;
  mediaType : string
}.

Record OverseerrRequester : Type := mk_requester {
  api_url : option string;
  api_key : option string
}.

Definition __init__ (config : Config.config) : result OverseerrRequester :=
  section ← deref (get_or (Config.overseerr config) Config.no_credentials);
  let api_url := get_or (Config.api_url section) "http://localhost:5055" in
  section ← deref (get_or (Config.overseerr config) Config.no_credentials);
  let api_key := get_or (Config.api_key section) "" in
  if negb (truthy api_key)
  then Raise ValueError
  else Ok {| api_url := api_url; api_key := api_key |}.

Definition request : Type := Http.request payload.
Definition response : Type := Http.response movie_details.

Section WithServer.
(** The server: its answer to a request, given the requests before it. *)
Variable server : list request -> request -> result response.

Definition requests_get (url : string) (headers : list (string * option string))
    (timeout : Z) : Eff.M response :=
  Eff.call server (fun q => q)
    {| Http.meth := Http.GET; Http.url := url; Http.params := [];
       Http.headers := headers; Http.json := None; Http.timeout := timeout |}.

Definition requests_post (url : string) (json : payload)
    (headers : list (string * option string)) (timeout : Z) : Eff.M response :=
  Eff.call server (fun q => q)
    {| Http.meth := Http.POST; Http.url := url; Http.params := [];
       Http.headers := headers; Http.json := Some json;
       Http.timeout := timeout |}.

(** [status and status >= 2] *)
Definition pending_or_further (status : option Z) : bool :=
  match status with
  | Some s => truthy s && (2 <=? s)%Z
  | None => false
  end.

Definition _is_already_requested (self : OverseerrRequester) (tmdb_id : Z)
  : Eff.M bool :=
  Eff.try_catch
    (let endpoint := fmt (api_url self) +:+ "/api/v1/movie/" +:+ str_int tmdb_id in
     let headers := [("X-Api-Key", api_key self)] in
     do response <- requests_get endpoint headers 10;
     if (Http.status_code response =? 200)%Z then
       do data <- Eff.lift (Http.json_of response);
       do media_info <- Eff.lift (deref (get_or (mediaInfo data) no_media_info));
       let status := get (status media_info) in
       if pending_or_further status then Eff.ret true else Eff.ret false
     else Eff.ret false)
    (fun e => Eff.ret false).

Definition request_media (self : OverseerrRequester) (release : release)
  : Eff.M bool :=
  Eff.try_catch
    (let tmdb_id := get (tmdb_id release) in
     let title := get_or (title release) "Unknown" in
     match tmdb_id with
     | None => Eff.ret false
     | Some id =>
       if negb (truthy id) then Eff.ret false else
       do already <- _is_already_requested self id;
       if already : bool then Eff.ret false else
       let endpoint := fmt (api_url self) +:+ "/api/v1/request" in
       let headers := [("X-Api-Key", api_key self);
                       ("Content-Type", Some "application/json")] in
       (* [int(tmdb_id)] of an [int] is the [int] *)
       let payload := {| mediaId := id; mediaType := "movie" |} in
       do response <- requests_post endpoint payload headers 10;
       if existsb (Z.eqb (Http.status_code response)) [200; 201]%Z
       then Eff.ret true
       else if (Http.status_code response =? 409)%Z
       then Eff.ret true
       else Eff.ret false
     end)
    (fun e =>
       if is_request_exception e
       then Eff.ret false   (* except requests.exceptions.RequestException *)
       else Eff.ret false   (* except Exception *)).
End WithServer.

End Overseerr.

(** ** riven_requester.py *)

Module Riven.

Record payload : Type := mk_payload {
  media_type : string;
  tmdb_ids : list string
}.

(** A message of a result entry: a literal, or [str(e)] of the exception
    caught. *)
Inductive message : Type :=
| Literal (s : string)
| StrOf (e : exn).

(** An entry of ["results"]: [{"status": "success", "ids": ...}] or
    [{"status": "error", ...}] with the keys it carries. *)
Inductive entry : Type :=
| Success (ids : list string)
| Error (code : option Z) (msg : option message).

(** The dictionary [{"success": ..., "failed": ..., "results": ...}]. *)
Record batch_result : Type := mk_batch {
  success : nat;
  failed : nat;
  results : list entry
}.

Record RivenRequester : Type := mk_requester {
  api_url : option string;
  api_key : option string
}.

Definition __init__ (config : Config.config) : result RivenRequester :=
  section ← deref (get_or (Config.riven config) Config.no_credentials);
  let api_url := get_or (Config.api_url section) "http://localhost:8083" in
  section ← deref (get_or (Config.riven config) Config.no_credentials);
  let api_key := get_or (Config.api_key section) "" in
  Ok {| api_url := api_url; api_key := api_key |}.

Definition is_enabled (self : RivenRequester) : bool :=
  truthy (api_key self) && truthy (api_url self).

Definition request : Type := Http.request payload.
Definition response : Type := Http.response unit.

Section WithServer.
Variable server : list request -> request -> result response.

Definition requests_post (url : string) (json : payload)
    (headers : list (string * option string)) (timeout : Z) : Eff.M response :=
  Eff.call server (fun q => q)
    {| Http.meth := Http.POST; Http.url := url; Http.params := [];
       Http.headers := headers; Http.json := Some json;
       Http.timeout := timeout |}.

(** [str(x)] for an [int]-or-None. *)
Definition str_opt_int (x : option Z) : string :=
  match x with
  | Some n => str_int n
  | None => "None"
  end.

(** [[str(r.get("tmdb_id")) for r in releases if r.get("tmdb_id")]] *)
Definition extract_tmdb_ids (releases : list release) : list string :=
  map (fun r => str_opt_int (get (tmdb_id r)))
      (List.filter (fun r => truthy (get (tmdb_id r))) releases).

Definition _add_items (self : RivenRequester) (media_type : string)
    (releases : list release) : Eff.M batch_result :=
  Eff.try_catch
    (let tmdb_ids := extract_tmdb_ids releases in
     if negb (truthy tmdb_ids) then
       Eff.ret {| success := 0; failed := length releases; results := [] |}
     else
       let endpoint := fmt (api_url self) +:+ "/api/v1/items/add" in
       let headers := [("x-api-key", api_key self);
                       ("Content-Type", Some "application/json");
                       ("Accept", Some "application/json")] in
       let payload := {| media_type := media_type; tmdb_ids := tmdb_ids |} in
       do response <- requests_post endpoint payload headers 10;
       if (Http.status_code response =? 200)%Z then
         Eff.ret {| success := length tmdb_ids;
                    failed := 0;
                    results := [Success tmdb_ids] |}
       else if (Http.status_code response =? 404)%Z then
         Eff.ret {| success := 0;
                    failed := length tmdb_ids;
                    results := [Error (Some 404%Z) (Some (Literal "Not found"))] |}
       else if (Http.status_code response =? 422)%Z then
         Eff.ret {| success := 0;
                    failed := length tmdb_ids;
                    results :=
                      [Error (Some 422%Z) (Some (Literal "Validation error"))] |}
       else
         Eff.ret {| success := 0;
                    failed := length tmdb_ids;
                    results :=
                      [Error (Some (Http.status_code response)) None] |})
    (fun e =>
       if is_request_exception e
       then Eff.ret {| success := 0;
                       failed := length releases;
                       results := [Error None (Some (StrOf e))] |}
       else Eff.ret {| success := 0;
                       failed := length releases;
                       results := [Error None (Some (StrOf e))] |}).

(** [r.get("type") == "movie"] *)
Definition is_movie (r : release) : bool :=
  match get (rtype r) with
  | Some t => String.eqb t "movie"
  | None => false
  end.

Definition add_media (self : RivenRequester) (releases : list release)
  : Eff.M batch_result :=
  if negb (is_enabled self) then
    Eff.ret {| success := 0; failed := 0; results := [] |}
  else
    let movies := List.filter is_movie releases in
    if truthy movies
    then _add_items self "movie" movies
    else Eff.ret {| success := 0; failed := 0; results := [] |}.
End WithServer.

(** What [get_status] returns: [{"status": "healthy"}],
    [{"status": "unhealthy", "code": ...}] or
    [{"status": "unreachable", "error": str(e)}]. *)
Inductive health : Type :=
| Healthy
| Unhealthy (code : Z)
| Unreachable (error : message).

Section WithHealth.
Variable server : list request -> request -> result response.

Definition requests_get (url : string) (timeout : Z) : Eff.M response :=
  Eff.call server (fun q => q)
    {| Http.meth := Http.GET; Http.url := url; Http.params := [];
       Http.headers := []; Http.json := None; Http.timeout := timeout |}.

Definition get_status (self : RivenRequester) : Eff.M health :=
  Eff.try_catch
    (let endpoint := fmt (api_url self) +:+ "/health" in
     do response <- requests_get endpoint 5;
     if (Http.status_code response =? 200)%Z
     then Eff.ret Healthy
     else Eff.ret (Unhealthy (Http.status_code response)))
    (fun e => Eff.ret (Unreachable (StrOf e))).
End WithHealth.

End Riven.

(** ** discord_notifier.py *)

Module Discord.

Definition TMDB_IMAGE_BASE : string := "https://image.tmdb.org/t/p/w500".
Definition DISCORD_RATE_LIMIT_DELAY : Q := 1.

Record embed_field : Type := mk_field {
  name : string;
  value : string;
  inline : bool
}.

Record embed : Type := mk_embed {
  embed_title : string;
  description : string;
  color : Z;
  fields : list embed_field;
  footer : string;
  timestamp : string;
  thumbnail : option string
}.

Record payload : Type := mk_payload {
  embeds : list embed
}.

Definition request : Type := Http.request payload.
Definition response : Type := Http.response unit.

(** [Dict[str, bool]]: the sinks' flags of one release. *)
Abbreviation flags := (gmap string bool).

(** What a run does that can be seen from outside: webhook requests and
    pauses; [Attempt] marks each call of [_send_release_notification]. *)
Inductive event : Type :=
| Attempt (release : release) (result : flags)
| Posted (q : request)
| Slept (seconds : Q).

Record DiscordNotifier : Type := mk_notifier {
  webhook_url : option string
}.

Definition __init__ (config : Config.config) : result DiscordNotifier :=
  section ← deref (get_or (Config.discord config) Config.no_discord);
  Ok {| webhook_url := get_or (Config.webhook_url section) "" |}.

Definition is_enabled (self : DiscordNotifier) : bool :=
  truthy (webhook_url self).

(** [str(release.get("tmdb_id", ""))] *)
Definition str_tmdb_id (r : release) : string :=
  match tmdb_id r with
  | Absent => ""
  | Null => "None"
  | Val n => str_int n
  end.

(** [" & ".join(l)] *)
Fixpoint join_amp (l : list string) : string :=
  match l with
  | [] => ""
  | [s] => s
  | s :: l' => s +:+ " & " +:+ join_amp l'
  end.

(** [len(x)] raises [TypeError] on [None]; so does formatting [None] with a
    format specification. *)
Definition not_none {A} (x : option A) : result A :=
  match x with
  | Some a => Ok a
  | None => Raise TypeError
  end.

Section WithWebhook.
Variable webhook : list event -> request -> result response.
(** [datetime.utcnow().isoformat()], read when the embed is built. *)
Variable utcnow : list event -> string.
(** [f"{x:.1f}"] *)
Variable format_1f : Q -> string.

Definition requests_post (url : option string) (json : payload)
    (headers : list (string * option string)) (timeout : Z) : Eff.M response :=
  Eff.call webhook Posted
    {| Http.meth := Http.POST; Http.url := fmt url; Http.params := [];
       Http.headers := headers; Http.json := Some json;
       Http.timeout := timeout |}.

Definition _send_release_notification (self : DiscordNotifier)
    (release : release) (result : flags) : Eff.M bool :=
  do _ <- Eff.emit (Attempt release result);
  let title := get_or (title release) "Unknown Title" in
  let overview := get_or (overview release) "No description available." in
  let poster_path := get_or (poster_path release) "" in
  let vote_average := get_or (vote_average release) 0%Q in
  let added_to :=
    (if truthy (result !! "overseerr") then ["Overseerr"] else []) ++
    (if truthy (result !! "riven") then ["Riven"] else []) in
  let added_str := join_amp added_to in
  do overview <- Eff.lift (not_none overview);
  let overview :=
    if (200 <? String.length overview)%nat
    then slice_to 197 overview +:+ "..."
    else overview in
  do rating <- Eff.lift (not_none vote_average);
  do now <- (fun tr => (Ok (utcnow tr), tr));
  let embed :=
    {| embed_title := "🎬 " +:+ fmt title +:+ " has been released!";
       description := overview;
       color := 65280%Z;
       fields := [ {| name := "Rating";
                      value := "⭐ " +:+ format_1f rating +:+ "/10";
                      inline := true |};
                   {| name := "Added to";
                      value := "✅ " +:+ added_str;
                      inline := true |} ];
       footer := "Digitarr - Digital Movie Release Checker";
       timestamp := now;
       thumbnail :=
         if truthy poster_path
         then Some (TMDB_IMAGE_BASE +:+ fmt poster_path)
         else None |} in
  let payload := {| embeds := [embed] |} in
  Eff.try_catch
    (do response <-
       requests_post (webhook_url self) payload
         [("Content-Type", Some "application/json")] 10;
     if existsb (Z.eqb (Http.status_code response)) [200; 204]%Z
     then Eff.ret true
     else Eff.ret false)
    (fun e =>
       if is_request_exception e then Eff.ret false else Eff.raise e).

(** Body of the loop, lines 51-64, on the loop variable [sent_count]. *)
Definition loop_body (self : DiscordNotifier) (results : gmap string flags)
    (sent_count : nat) (release : release) : Eff.M nat :=
  let tmdb_id := str_tmdb_id release in
  let release_result := default ∅ (results !! tmdb_id) in
  if negb (truthy (release_result !! "overseerr")) &&
     negb (truthy (release_result !! "riven"))
  then Eff.ret sent_count   (* continue *)
  else
    Eff.try_catch
      (do success <- _send_release_notification self release release_result;
       let sent_count := if success : bool then S sent_count else sent_count in
       do _ <- Eff.emit (Slept DISCORD_RATE_LIMIT_DELAY);
       Eff.ret sent_count)
      (fun e => Eff.ret sent_count).

Definition send_release_notifications (self : DiscordNotifier)
    (releases : list release) (results : gmap string flags) : Eff.M nat :=
  if negb (is_enabled self) then Eff.ret 0%nat
  else Eff.each releases (loop_body self results) 0%nat.
End WithWebhook.

(** The payload of [test_webhook]: one embed with a title, a description, a
    colour and a timestamp. *)
Record test_embed : Type := mk_test_embed {
  test_title : string;
  test_description : string;
  test_color : Z;
  test_timestamp : string
}.

Record test_payload : Type := mk_test_payload {
  test_embeds : list test_embed
}.

Section WithTestWebhook.
Variable webhook : list (Http.request test_payload) -> Http.request test_payload
                   -> result response.
Variable utcnow : list (Http.request test_payload) -> string.

Definition test_webhook (self : DiscordNotifier) : Eff.M bool :=
  if negb (is_enabled self) then Eff.ret false
  else
    Eff.try_catch
      (do now <- (fun tr => (Ok (utcnow tr), tr));
       let payload :=
         {| test_embeds :=
              [ {| test_title := "🔔 Digitarr Test";
                   test_description := "Discord webhook is configured correctly!";
                   test_color := 65280%Z;
                   test_timestamp := now |} ] |} in
       do response <-
         Eff.call webhook (fun q => q)
           {| Http.meth := Http.POST; Http.url := fmt (webhook_url self);
              Http.params := [];
              Http.headers := [("Content-Type", Some "application/json")];
              Http.json := Some payload; Http.timeout := 10 |};
       if existsb (Z.eqb (Http.status_code response)) [200; 204]%Z
       then Eff.ret true
       else Eff.ret false)
      (fun e => Eff.ret false).
End WithTestWebhook.

End Discord.

(** ** Notions the properties are stated with *)

Module Spec.

(** The country groups of a detail document, in catalog order. *)
Definition countries (movie : Tmdb.movie) : list Tmdb.country_releases :=
  match Tmdb.movie_release_dates movie with
  | Val doc => match Tmdb.results doc with Val cs => cs | _ => [] end
  | _ => []
  end.

Definition entries (c : Tmdb.country_releases) : list Tmdb.release_date_entry :=
  match Tmdb.release_dates c with Val es => es | _ => [] end.

(** A missing or null text reads as the empty text. *)
Definition text (f : field string) : string :=
  match f with Val s => s | _ => "" end.

Definition is_digital (e : Tmdb.release_date_entry) : bool :=
  match Tmdb.type e with Val n => (n =? 4)%Z | _ => false end.

(** The digital entries of one country group, each with the group's code. *)
Definition tagged (c : Tmdb.country_releases)
  : list (string * Tmdb.release_date_entry) :=
  map (fun e => (text (Tmdb.iso_3166_1 c), e)) (List.filter is_digital (entries c)).

(** The entries whose release type is digital, each with the country code of
    its group, in the order the catalog lists them. *)
Definition digital_entries (movie : Tmdb.movie)
  : list (string * Tmdb.release_date_entry) :=
  flat_map tagged (countries movie).

(** The (country, certification) pairs of the digital entries. *)
Definition digital_certifications (movie : Tmdb.movie) : list (string * string) :=
  map (fun ce => (fst ce, text (Tmdb.certification (snd ce)))) (digital_entries movie).

(** The release dates of the digital entries. *)
Definition digital_dates (movie : Tmdb.movie) : list string :=
  map (fun ce => text (Tmdb.release_date (snd ce))) (digital_entries movie).

Definition nonempty (s : string) : bool := negb (String.eqb s "").

(** The tie-break policy of the specification, one entry at a time: a
    non-empty certification from "US" overwrites; one from another country is
    recorded only when none is recorded yet. *)
Definition tie_break_step (recorded : option string) (entry : string * string)
  : option string :=
  let '(country, cert) := entry in
  if nonempty cert then
    if String.eqb country "US" then Some cert
    else match recorded with
         | None => Some cert
         | Some _ => recorded
         end
  else recorded.

Definition tie_break (entries : list (string * string)) : option string :=
  fold_left tie_break_step entries None.

(** The first-seen rule for the date, one entry at a time. *)
Definition date_step (recorded : option string) (date : string) : option string :=
  match recorded with
  | Some _ => recorded
  | None => if nonempty date then Some (slice_to 10 date) else None
  end.

(** Both loop variables at once. *)
Definition info_step (st : ReleaseChecker.info) (ce : string * Tmdb.release_date_entry) : ReleaseChecker.info :=
  (date_step (fst st) (text (Tmdb.release_date (snd ce))),
   tie_break_step (snd st) (fst ce, text (Tmdb.certification (snd ce)))).

(** What the loop variables hold is never an empty text. *)
Definition never_empty (st : ReleaseChecker.info) : Prop :=
  fst st <> Some "" /\ snd st <> Some "".

(** A detail document has no [null] where the code expects a container. *)
Definition is_null {A} (f : field A) : bool :=
  match f with Null => true | _ => false end.

Definition has_entries (c : Tmdb.country_releases) : bool :=
  negb (is_null (Tmdb.release_dates c)).

Definition well_formed (movie : Tmdb.movie) : bool :=
  match Tmdb.movie_release_dates movie with
  | Null => false
  | Absent => true
  | Val doc =>
      match Tmdb.results doc with
      | Null => false
      | Absent => true
      | Val cs => forallb has_entries cs
      end
  end.

(** A detail document with one country group per pair, each holding one
    digital entry with the pair's certification. *)
Definition detail_of (pairs : list (string * string)) : Tmdb.movie :=
  {| Tmdb.movie_id := Val 1%Z;
     Tmdb.movie_title := Val "A title";
     Tmdb.movie_release_date := Val "2026-01-10";
     Tmdb.movie_overview := Absent;
     Tmdb.movie_imdb_id := Absent;
     Tmdb.movie_vote_average := Val (15 # 2);
     Tmdb.movie_popularity := Absent;
     Tmdb.movie_adult := Val false;
     Tmdb.movie_poster_path := Absent;
     Tmdb.movie_original_language := Val "en";
     Tmdb.movie_genres := Absent;
     Tmdb.movie_release_dates :=
       Val {| Tmdb.results :=
                Val (map (fun p =>
                            {| Tmdb.iso_3166_1 := Val (fst p);
                               Tmdb.release_dates :=
                                 Val [ {| Tmdb.type := Val 4%Z;
                                          Tmdb.release_date := Absent;
                                          Tmdb.certification := Val (snd p) |} ] |})
                         pairs) |} |}.

(** A detail document whose groups carry the given dated entries:
    (country, [(type, release date, certification)]). *)
Definition detail_with
    (groups : list (string * list (Z * string * string))) : Tmdb.movie :=
  {| Tmdb.movie_id := Val 1%Z;
     Tmdb.movie_title := Val "A title";
     Tmdb.movie_release_date := Val "2025-12-01";
     Tmdb.movie_overview := Absent;
     Tmdb.movie_imdb_id := Absent;
     Tmdb.movie_vote_average := Val (15 # 2);
     Tmdb.movie_popularity := Absent;
     Tmdb.movie_adult := Val false;
     Tmdb.movie_poster_path := Absent;
     Tmdb.movie_original_language := Val "en";
     Tmdb.movie_genres := Val [ {| Tmdb.name := Val "Drama" |} ];
     Tmdb.movie_release_dates :=
       Val {| Tmdb.results :=
                Val (map (fun g =>
                            {| Tmdb.iso_3166_1 := Val (fst g);
                               Tmdb.release_dates :=
                                 Val (map (fun e =>
                                             {| Tmdb.type := Val (fst (fst e));
                                                Tmdb.release_date := Val (snd (fst e));
                                                Tmdb.certification := Val (snd e) |})
                                          (snd g)) |})
                         groups) |} |}.

(** Three groups: a theatrical entry and an undated digital one, then two
    dated digital entries, the later date listed first. *)
Definition three_countries : Tmdb.movie :=
  detail_with
    [ ("FR", [ (3%Z, "2025-12-01T00:00:00.000Z", "12"); (4%Z, "", "") ]);
      ("DE", [ (4%Z, "2026-02-01T00:00:00.000Z", "") ]);
      ("US", [ (4%Z, "2026-01-15T00:00:00.000Z", "PG-13") ]) ].

End Spec.

(** Notions for the filter engine. *)
Module FilterSpec.
Import Filters.

(** The outcome of a test that can raise, read as "the test holds". *)
Definition holds (r : result bool) : bool :=
  match r with
  | Ok b => b
  | Raise _ => false
  end.

(** Two characters are the same up to the case of a letter of ASCII. *)
Definition is_upper_letter (c : ascii) : bool :=
  (65 <=? N_of_ascii c)%N && (N_of_ascii c <=? 90)%N.

Definition same_char (c1 c2 : ascii) : bool :=
  Ascii.eqb c1 c2
  || (is_upper_letter c1 && (N_of_ascii c2 =? N_of_ascii c1 + 32)%N)
  || (is_upper_letter c2 && (N_of_ascii c1 =? N_of_ascii c2 + 32)%N).

(** The 256 characters. *)
Definition all_chars : list ascii :=
  let bs := [false; true] in
  b0 ← bs; b1 ← bs; b2 ← bs; b3 ← bs; b4 ← bs; b5 ← bs; b6 ← bs; b7 ← bs;
  [Ascii b0 b1 b2 b3 b4 b5 b6 b7].

(** Two texts are equal ignoring case. *)
Fixpoint equal_ignoring_case (a b : string) : bool :=
  match a, b with
  | EmptyString, EmptyString => true
  | String c1 a', String c2 b' => same_char c1 c2 && equal_ignoring_case a' b'
  | _, _ => false
  end.

(** The configured list of a deny- or allow-list option; missing and [null]
    read as the empty list. *)
Definition configured (f : field (list string)) : list string :=
  match f with Val l => l | _ => [] end.

(** The language of a release as the language filter reads it. *)
Definition language (r : release) : option string :=
  get_or (original_language r) "".

(** A release's language is one of the allowed codes. *)
Definition language_allowed (allowed : list string) (r : release) : Prop :=
  exists code, language r = Some code /\ In code allowed.

(** A release carries a non-empty certification that equals, ignoring case,
    one of the excluded ones. *)
Definition certification_excluded (excluded : list string) (r : release) : Prop :=
  exists cert e, certification r = Val cert /\ cert <> ""
                 /\ In e excluded /\ equal_ignoring_case cert e = true.

(** The certification of a release, when it has one, is ASCII text. *)
Definition ascii_certification (r : release) : Prop :=
  forall cert, certification r = Val cert -> isascii cert = true.

(** The genre names of a release are ASCII text. *)
Definition ascii_genres (r : release) : Prop :=
  forall gs g, genres r = Val gs -> In (Some g) gs -> isascii g = true.

(** A release has no certification: the key is missing, [None] or empty. *)
Definition no_certification (r : release) : Prop :=
  certification r = Absent \/ certification r = Null \/ certification r = Val "".

(** A release lists a genre that equals, ignoring case, an excluded one. *)
Definition genre_excluded (excluded : list string) (r : release) : Prop :=
  exists gs g e, genres r = Val gs /\ In (Some g) gs
                 /\ In e excluded /\ equal_ignoring_case g e = true.

(** A release passes the minimum rating: its score (0 when the key is
    missing) is a number at or above the configured minimum (0 when the
    option is missing). *)
Definition passes_rating (self : filters) (r : release) : Prop :=
  exists v m, get_or (vote_average r) 0%Q = Some v
              /\ get_or (min_tmdb_rating self) 0%Q = Some m
              /\ Qle_bool m v = true.

(** The rating test of one release. *)
Definition rating_test (self : filters) (r : release) : result bool :=
  ge (get_or (vote_average r) 0%Q) (get_or (min_tmdb_rating self) 0%Q).

(** The genre test of one release: no genre of it is excluded. *)
Definition genre_test (excluded : list string) (r : release) : result bool :=
  gs ← lower_all (get_or (genres r) []);
  Ok (negb (existsb (fun g => str_in g (map lower excluded)) gs)).

(** A release the stages can test without raising: its score is a number (or
    the key is missing) and its genres are a list of names (or the key is
    missing). *)
Definition testable (r : release) : Prop :=
  vote_average r <> Null
  /\ match genres r with
     | Null => False
     | Absent => True
     | Val gs => Forall (fun g => g <> None) gs
     end.

(** What each stage keeps, when it does not raise. *)
Definition stage_keeps (self : filters) (s : stage) (r : release) : bool :=
  match s with
  | Adult =>
      if truthy (get (exclude_adult self))
      then negb (truthy (get_or (adult r) false))
      else true
  | MinRating =>
      if holds (gt (get_or (min_tmdb_rating self) 0%Q) (Some 0%Q))
      then holds (rating_test self r)
      else true
  | AllowedLanguages =>
      match configured (allowed_languages self) with
      | [] => true
      | allowed => opt_str_in (language r) allowed
      end
  | ExcludedGenres =>
      match configured (excluded_genres self) with
      | [] => true
      | excluded => holds (genre_test excluded r)
      end
  | ExcludedCertifications =>
      match configured (excluded_certifications self) with
      | [] => true
      | excluded =>
          negb (cert_excluded (get_or (certification r) "") (map upper excluded))
      end
  end.

(** Fixtures: a release with the given values under the keys the filters
    read, and the configurations that set one option. *)
Definition fixture (is_adult : field bool) (score : field Q) (lang : field string)
    (genre_names : field (list (option string))) (cert : field string) : release :=
  {| rtype := Val "movie"; tmdb_id := Val 1%Z; title := Val "A title";
     release_date := Null; overview := Null; imdb_id := Null;
     vote_average := score; popularity := Null; adult := is_adult;
     poster_path := Null; original_language := lang; genres := genre_names;
     certification := cert |}.

Definition no_filters : filters :=
  {| exclude_adult := Absent; min_tmdb_rating := Absent;
     allowed_languages := Absent; excluded_genres := Absent;
     excluded_certifications := Absent |}.

Definition languages_only (allowed : field (list string)) : filters :=
  {| exclude_adult := Absent; min_tmdb_rating := Absent;
     allowed_languages := allowed; excluded_genres := Absent;
     excluded_certifications := Absent |}.

Definition adult_only : filters :=
  {| exclude_adult := Val true; min_tmdb_rating := Absent;
     allowed_languages := Absent; excluded_genres := Absent;
     excluded_certifications := Absent |}.

Definition rating_only (minimum : Q) : filters :=
  {| exclude_adult := Absent; min_tmdb_rating := Val minimum;
     allowed_languages := Absent; excluded_genres := Absent;
     excluded_certifications := Absent |}.

Definition certifications_only (excluded : field (list string)) : filters :=
  {| exclude_adult := Absent; min_tmdb_rating := Absent;
     allowed_languages := Absent; excluded_genres := Absent;
     excluded_certifications := excluded |}.

(** An adult release whose score is [None], a configuration that excludes
    adult content and asks for a score of 5, and the order that applies the
    rating stage first. *)
Definition adult_unrated : release :=
  fixture (Val true) Null (Val "en") (Val []) Null.

Definition adult_and_rating : filters :=
  {| exclude_adult := Val true; min_tmdb_rating := Val 5%Q;
     allowed_languages := Absent; excluded_genres := Absent;
     excluded_certifications := Absent |}.

Definition rating_first : list stage :=
  [MinRating; Adult; AllowedLanguages; ExcludedGenres; ExcludedCertifications].

(** A release scored 7.5 in the genre "Horror", and a configuration that
    asks for a score of 7 and excludes "horror". *)
Definition horror : release :=
  fixture (Val false) (Val (15 # 2)) (Val "en") (Val [Some "Horror"]) Null.

Definition rating_and_genres : filters :=
  {| exclude_adult := Absent; min_tmdb_rating := Val 7%Q;
     allowed_languages := Absent; excluded_genres := Val ["horror"];
     excluded_certifications := Absent |}.

End FilterSpec.

(** Notions for the minimal-request sink. *)
Module OverseerrSpec.
Import Overseerr.

(** The status check and the submission, as requests. *)
Definition status_request (self : OverseerrRequester) (id : Z) : request :=
  {| Http.meth := Http.GET;
     Http.url := fmt (api_url self) +:+ "/api/v1/movie/" +:+ str_int id;
     Http.params := [];
     Http.headers := [("X-Api-Key", api_key self)];
     Http.json := None;
     Http.timeout := 10 |}.

Definition submit_request (self : OverseerrRequester) (id : Z) : request :=
  {| Http.meth := Http.POST;
     Http.url := fmt (api_url self) +:+ "/api/v1/request";
     Http.params := [];
     Http.headers := [("X-Api-Key", api_key self);
                      ("Content-Type", Some "application/json")];
     Http.json := Some {| mediaId := id; mediaType := "movie" |};
     Http.timeout := 10 |}.

(** The status ordinal the status check reports, if it reports one: the
    answer is a 200 whose document carries [mediaInfo.status]. *)
Definition reported_status (answer : result response) : option Z :=
  match answer with
  | Ok r =>
      if (Http.status_code r =? 200)%Z then
        match Http.body r with
        | Some data =>
            match mediaInfo data with
            | Val info => get (status info)
            | _ => None
            end
        | None => None
        end
      else None
  | Raise _ => None
  end.

(** The check reports the item pending or further along. *)
Definition reports_requested (answer : result response) : bool :=
  match reported_status answer with
  | Some s => (2 <=? s)%Z
  | None => false
  end.

(** A release that carries only an identifier. *)
Definition identified (id : field Z) : release :=
  {| rtype := Val "movie"; tmdb_id := id; title := Val "A title";
     release_date := Null; overview := Null; imdb_id := Null;
     vote_average := Null; popularity := Null; adult := Val false;
     poster_path := Null; original_language := Val "en"; genres := Val [];
     certification := Null |}.

Definition sink : OverseerrRequester :=
  {| api_url := Some "http://localhost:5055"; api_key := Some "key" |}.

(** A server that answers the status check with a 200 carrying the given
    status ordinal and a submission with the given status code. *)
Definition answering (ordinal : field Z) (code : Z)
  : list request -> request -> result response :=
  fun _ q =>
    match Http.meth q with
    | Http.GET =>
        Ok {| Http.status_code := 200; Http.text := "";
              Http.body := Some {| mediaInfo := Val {| status := ordinal |} |} |}
    | Http.POST =>
        Ok {| Http.status_code := code; Http.text := ""; Http.body := None |}
    end.

(** A server that cannot be reached. *)
Definition unreachable : list request -> request -> result response :=
  fun _ _ => Raise RequestException.

End OverseerrSpec.

(** Notions for the bulk-ingest sink. *)
Module RivenSpec.
Import Riven.

(** A release carries an identifier: [tmdb_id] is present and not 0. *)
Definition carries_id (r : release) : bool := truthy (get (tmdb_id r)).

(** The one request of a batch. *)
Definition submit_request (self : RivenRequester) (media_type : string)
    (ids : list string) : request :=
  {| Http.meth := Http.POST;
     Http.url := fmt (api_url self) +:+ "/api/v1/items/add";
     Http.params := [];
     Http.headers := [("x-api-key", api_key self);
                      ("Content-Type", Some "application/json");
                      ("Accept", Some "application/json")];
     Http.json := Some {| media_type := media_type; tmdb_ids := ids |};
     Http.timeout := 10 |}.

(** The counts of a batch result. *)
Definition counts (b : batch_result) : nat * nat := (success b, failed b).

(** The batch result for each answer of the server. *)
Definition outcome (answer : result response) (releases : list release)
  : batch_result :=
  let ids := extract_tmdb_ids releases in
  match answer with
  | Ok response =>
      if (Http.status_code response =? 200)%Z then
        {| success := length ids; failed := 0; results := [Success ids] |}
      else if (Http.status_code response =? 404)%Z then
        {| success := 0; failed := length ids;
           results := [Error (Some 404%Z) (Some (Literal "Not found"))] |}
      else if (Http.status_code response =? 422)%Z then
        {| success := 0; failed := length ids;
           results := [Error (Some 422%Z) (Some (Literal "Validation error"))] |}
      else
        {| success := 0; failed := length ids;
           results := [Error (Some (Http.status_code response)) None] |}
  | Raise e =>
      {| success := 0; failed := length releases;
         results := [Error None (Some (StrOf e))] |}
  end.

(** Fixtures. *)
Definition item (kind : field string) (id : field Z) : release :=
  {| rtype := kind; tmdb_id := id; title := Val "A title";
     release_date := Null; overview := Null; imdb_id := Null;
     vote_average := Null; popularity := Null; adult := Val false;
     poster_path := Null; original_language := Val "en"; genres := Val [];
     certification := Null |}.

Definition sink : RivenRequester :=
  {| api_url := Some "http://localhost:8083"; api_key := Some "key" |}.

(** A server that answers every request with the given status code. *)
Definition answering (code : Z) : list request -> request -> result response :=
  fun _ _ => Ok {| Http.status_code := code; Http.text := ""; Http.body := None |}.

(** A server that cannot be reached. *)
Definition unreachable : list request -> request -> result response :=
  fun _ _ => Raise RequestException.

End RivenSpec.

(** Notions for the sinks' credentials. *)
Module ConfigSpec.
Import Config.

(** A text option is missing or empty: the key is absent, [null] or [""]. *)
Definition blank (f : field string) : bool :=
  match f with
  | Val s => String.eqb s ""
  | _ => true
  end.

(** A sink's API key is missing or empty: the section is absent, or it is
    there without a non-empty ["api_key"]. *)
Definition key_missing (section : field credentials) : Prop :=
  match section with
  | Absent => True
  | Null => False
  | Val c => blank (api_key c) = true
  end.

(** The webhook address is missing or empty. *)
Definition webhook_missing (section : field discord_section) : Prop :=
  match section with
  | Absent => True
  | Null => False
  | Val d => blank (webhook_url d) = true
  end.

(** A value-or-None is a non-empty text. *)
Definition present (x : option string) : Prop :=
  exists s, x = Some s /\ s <> "".

(** The configuration gives the sink a credential: its section is a
    dictionary whose ["api_key"] is a non-empty text. *)
Definition key_given (section : field credentials) : Prop :=
  exists c k, section = Val c /\ api_key c = Val k /\ k <> "".

(** The configuration leaves the sink with an endpoint: the section or its
    ["api_url"] is missing, so that the default address stands, or
    ["api_url"] is a non-empty text. *)
Definition endpoint_given (section : field credentials) : Prop :=
  section = Absent
  \/ exists c, section = Val c
               /\ (api_url c = Absent \/ exists u, api_url c = Val u /\ u <> "").

(** The configuration gives the notifier a webhook address: its section is a
    dictionary whose ["webhook_url"] is a non-empty text. *)
Definition webhook_given (section : field discord_section) : Prop :=
  exists d w, section = Val d /\ webhook_url d = Val w /\ w <> "".

(** What the section holds under ["api_key"], [None] when it holds nothing
    or [null]. *)
Definition configured_key (section : field credentials) : option string :=
  match section with
  | Val c => get (api_key c)
  | _ => None
  end.

(** Fixtures: configurations with one section. *)
Definition with_overseerr (section : field credentials) : config :=
  {| overseerr := section; riven := Absent; discord := Absent; filters := Absent |}.

Definition with_riven (section : field credentials) : config :=
  {| overseerr := Absent; riven := section; discord := Absent; filters := Absent |}.

Definition with_discord (section : field discord_section) : config :=
  {| overseerr := Absent; riven := Absent; discord := section; filters := Absent |}.

End ConfigSpec.

(** Notions for the notifier. *)
Module DiscordSpec.
Import Discord.

(** The releases a run attempted to deliver, in order: one for each call of
    [_send_release_notification]. *)
Definition attempts (tr : list event) : list release :=
  flat_map (fun e => match e with Attempt r _ => [r] | _ => [] end) tr.



(** Fixtures. *)
Definition numbered (id : field Z) : release :=
  {| rtype := Val "movie"; tmdb_id := id; title := Val "A title";
     release_date := Null; overview := Val "An overview"; imdb_id := Null;
     vote_average := Val (15 # 2); popularity := Null; adult := Val false;
     poster_path := Null; original_language := Val "en"; genres := Val [];
     certification := Null |}.

Definition notifier : DiscordNotifier :=
  {| webhook_url := Some "https://discord.example/webhook" |}.

(** A webhook that answers 204 to everything. *)
Definition accepting : list event -> request -> result response :=
  fun _ _ => Ok {| Http.status_code := 204; Http.text := ""; Http.body := None |}.


End DiscordSpec.

(** Notions for the further properties of the filter engine. *)
Module EngineSpec.
Import Filters.

(** The score the rating filter reads: 0 when the key is missing. *)
Definition rated_at_least (minimum : Q) (r : release) : bool :=
  match vote_average r with
  | Val v => Qle_bool minimum v
  | Absent => Qle_bool minimum 0
  | Null => false
  end.

(** A genre list the genre filter cannot read: [None], or a list with a
    [None] name. *)
Definition unreadable_genres (r : release) : Prop :=
  genres r = Null \/ exists gs, genres r = Val gs /\ In None gs.

(** A release scored 7.5 in language "en", with no genre and no
    certification. *)
Definition plain : release :=
  FilterSpec.fixture (Val false) (Val (15 # 2)) (Val "en") (Val []) Null.

(** Settings that ask for nothing: adult content is not excluded, the minimum
    rating is missing or not above 0, and the three lists are missing, [null]
    or empty. *)
Definition asks_nothing (self : filters) : Prop :=
  truthy (get (exclude_adult self)) = false
  /\ (exists m, get_or (min_tmdb_rating self) 0%Q = Some m /\ Qle_bool m 0 = true)
  /\ FilterSpec.configured (allowed_languages self) = []
  /\ FilterSpec.configured (excluded_genres self) = []
  /\ FilterSpec.configured (excluded_certifications self) = [].

End EngineSpec.

(** Notions for the further properties of the catalog client. *)
Module CatalogSpec.
Import ReleaseChecker.

(** Every key the later stages read is in the dictionary. *)
Definition all_keys_present (r : release) : Prop :=
  rtype r <> Absent /\ tmdb_id r <> Absent /\ title r <> Absent
  /\ release_date r <> Absent /\ overview r <> Absent
  /\ vote_average r <> Absent /\ adult r <> Absent
  /\ poster_path r <> Absent /\ original_language r <> Absent
  /\ genres r <> Absent /\ certification r <> Absent.

(** The items of a discovery answer the client can use: the request
    returned, its status is no error status, its body is a JSON document and
    ["results"] is not [null]. *)
Definition found (answer : result (Http.response discover_doc))
  : option (list discovered) :=
  match answer with
  | Ok response =>
      match Http.raise_for_status response, Http.body response with
      | Ok _, Some data => get_or (discover_results data) []
      | _, _ => None
      end
  | Raise _ => None
  end.

(** A detail document without a score. *)
Definition unrated_movie : Tmdb.movie :=
  {| Tmdb.movie_id := Val 1%Z;
     Tmdb.movie_title := Val "A title";
     Tmdb.movie_release_date := Val "2026-01-10";
     Tmdb.movie_overview := Absent;
     Tmdb.movie_imdb_id := Absent;
     Tmdb.movie_vote_average := Absent;
     Tmdb.movie_popularity := Absent;
     Tmdb.movie_adult := Val false;
     Tmdb.movie_poster_path := Absent;
     Tmdb.movie_original_language := Val "en";
     Tmdb.movie_genres := Absent;
     Tmdb.movie_release_dates := Absent |}.

(** Fixtures: a catalog that finds the items 1 and 2 and knows the details
    of 2 only. *)
Definition finds_two : Http.request unit -> result (Http.response discover_doc) :=
  fun _ =>
    Ok {| Http.status_code := 200; Http.text := "";
          Http.body := Some {| discover_results := Val [ {| id := 1 |}; {| id := 2 |} ] |} |}.

Definition knows_two : Http.request unit -> result (Http.response Tmdb.movie) :=
  fun q =>
    if String.eqb (Http.url q) (tmdb_base_url +:+ "/movie/2")
    then Ok {| Http.status_code := 200; Http.text := "";
               Http.body := Some Spec.three_countries |}
    else Ok {| Http.status_code := 404; Http.text := ""; Http.body := None |}.

End CatalogSpec.

(** Notions for the further properties of the notifier. *)
Module NotifierSpec.
Import Discord.

(** A webhook request as the notifier sends it: a POST to the webhook
    address whose payload is one embed with the two fields "Rating" and
    "Added to" and a description of at most 200 characters. *)
Definition well_formed_post (self : DiscordNotifier) (q : request) : Prop :=
  Http.meth q = Http.POST
  /\ Http.url q = fmt (webhook_url self)
  /\ exists e : embed,
       Http.json q = Some {| embeds := [e] |}
       /\ (String.length (description e) <= 200)%nat
       /\ map name (fields e) = ["Rating"; "Added to"].

Definition posts_well_formed (self : DiscordNotifier) (tr : list event) : Prop :=
  Forall (fun ev => match ev with
                    | Posted q => well_formed_post self q
                    | _ => True
                    end) tr.

(** Every request in a trace is followed at once by the pause. *)
Fixpoint paced (tr : list event) : bool :=
  match tr with
  | [] => true
  | Posted _ :: rest =>
      match rest with
      | Slept seconds :: _ => Qeq_bool seconds DISCORD_RATE_LIMIT_DELAY
      | _ => false
      end && paced rest
  | _ :: rest => paced rest
  end.

(** The webhook accepted a request: it answered 200 or 204. *)
Definition accepted (answer : result response) : bool :=
  match answer with
  | Ok response => existsb (Z.eqb (Http.status_code response)) [200; 204]%Z
  | Raise _ => false
  end.

(** The number of requests in [new] the webhook accepted, each asked after
    the events before it ([before], then the earlier ones of [new]). *)
Fixpoint delivered (webhook : list event -> request -> result response)
    (before new : list event) : nat :=
  match new with
  | [] => 0
  | ev :: rest =>
      (match ev with
       | Posted q => if accepted (webhook before q) then 1 else 0
       | _ => 0
       end + delivered webhook (before ++ [ev]) rest)%nat
  end.

(** The events of a trace that are requests. *)
Definition posts (tr : list event) : list request :=
  flat_map (fun ev => match ev with Posted q => [q] | _ => [] end) tr.

(** A webhook that fails only as [requests] fails: what it raises is a
    [RequestException]. *)
Definition fails_as_requests (webhook : list event -> request -> result response)
  : Prop :=
  forall tr q e, webhook tr q = Raise e -> is_request_exception e = true.

(** What a run adds to the trace, and what it returns. *)
Definition summary (webhook : list event -> request -> result response)
    (self : DiscordNotifier) (sent_before sent_after : nat)
    (before new : list event) : Prop :=
  posts_well_formed self new
  /\ sent_after = (sent_before + delivered webhook before new)%nat
  /\ (fails_as_requests webhook -> paced new = true)
  /\ (length (posts new) <= length (DiscordSpec.attempts new))%nat.

(** Fixtures: a webhook that accepts the first request and refuses the
    later ones with a 429. *)
Definition accepts_first : list event -> request -> result response :=
  fun tr _ =>
    match posts tr with
    | [] => Ok {| Http.status_code := 204; Http.text := ""; Http.body := None |}
    | _ => Ok {| Http.status_code := 429; Http.text := ""; Http.body := None |}
    end.

Definition one_accepted : gmap string flags :=
  {[ "1" := {[ "overseerr" := true ]} ]}.

Definition all_accepted : gmap string flags :=
  {[ "123" := {[ "overseerr" := true ]};
     "456" := {[ "riven" := true ]} ]}.

End NotifierSpec.

(** Notions for the further properties of the sinks. *)
Module SinkSpec.

(** A request carries the given header with the given value. *)
Definition carries_header {P} (name : string) (value : option string)
    (q : Http.request P) : Prop :=
  In (name, value) (Http.headers q).

(** An answer carries one of the given status codes. *)
Definition accepted_codes {B} (codes : list Z) (answer : result (Http.response B))
  : bool :=
  match answer with
  | Ok response => existsb (Z.eqb (Http.status_code response)) codes
  | Raise _ => false
  end.

(** The health check of the bulk-ingest sink. *)
Definition health_request (self : Riven.RivenRequester) : Riven.request :=
  {| Http.meth := Http.GET;
     Http.url := fmt (Riven.api_url self) +:+ "/health";
     Http.params := [];
     Http.headers := [];
     Http.json := None;
     Http.timeout := 5 |}.

(** A test webhook that answers with the given status code. *)
Definition test_answering (code : Z)
  : list (Http.request Discord.test_payload) -> Http.request Discord.test_payload
    -> result Discord.response :=
  fun _ _ => Ok {| Http.status_code := code; Http.text := ""; Http.body := None |}.

End SinkSpec.

(** * Properties *)

(** ** Loops *)

Lemma for_each_app {A S} (body : S -> A -> result S) (l1 l2 : list A) (s : S) :
  for_each (l1 ++ l2) body s = (s' ← for_each l1 body s; for_each l2 body s').
Proof.
  revert s; induction l1 as [|x l1 IH]; intros s; simpl; [reflexivity|].
  destruct (body s x) as [s'|e]; simpl; [apply IH | reflexivity].
Qed.

(** A loop whose body never raises is a left fold. *)
Lemma for_each_pure {A S} (body : S -> A -> result S) (f : S -> A -> S) (l : list A) :
  forall s, (forall s x, In x l -> body s x = Ok (f s x)) ->
            for_each l body s = Ok (fold_left f l s).
Proof.
  induction l as [|x l IH]; intros s H; simpl; [reflexivity|].
  rewrite H by (left; reflexivity). simpl.
  apply IH. intros s' y Hy. apply H. right; exact Hy.
Qed.

(** A fold that skips the elements failing [p] and reads the others through
    [g] is the fold over the selected, mapped list. *)
Lemma fold_left_filter_map {A B S} (p : A -> bool) (g : A -> B) (f : S -> B -> S)
    (l : list A) :
  forall s, fold_left (fun s x => if p x then f s (g x) else s) l s
            = fold_left f (map g (List.filter p l)) s.
Proof.
  induction l as [|x l IH]; intros s; simpl; [reflexivity|].
  destruct (p x); simpl; apply IH.
Qed.

Lemma fold_left_flat_map {A B S} (h : A -> list B) (f : S -> B -> S) (l : list A) :
  forall s, fold_left (fun s x => fold_left f (h x) s) l s
            = fold_left f (flat_map h l) s.
Proof.
  induction l as [|x l IH]; intros s; simpl; [reflexivity|].
  rewrite fold_left_app. apply IH.
Qed.

Lemma fold_left_ext_inv {A S} (I : S -> Prop) (f g : S -> A -> S) (l : list A) :
  (forall s x, I s -> f s x = g s x /\ I (g s x)) ->
  forall s, I s -> fold_left f l s = fold_left g l s /\ I (fold_left g l s).
Proof.
  intros H. induction l as [|x l IH]; intros s Hs; simpl; [auto|].
  destruct (H s x Hs) as [-> Hi]. apply IH. exact Hi.
Qed.

(** ** release_checker.py: the scan of the release dates *)

Module ScanFacts.
Import ReleaseChecker Spec.

Lemma truthy_nonempty (s : string) : truthy s = nonempty s.
Proof. destruct s; reflexivity. Qed.

Lemma slice_to_nonempty (n : nat) (s : string) :
  s <> "" -> slice_to (S n) s <> "".
Proof. intros H. destruct s; [contradiction | simpl; discriminate]. Qed.

Lemma nonempty_true (s : string) : nonempty s = true <-> s <> "".
Proof.
  unfold nonempty. destruct (String.eqb_spec s ""); simpl; split; congruence.
Qed.

Lemma truthy_recorded (o : option string) :
  o <> Some "" -> truthy o = match o with Some _ => true | None => false end.
Proof.
  destruct o as [[|c s]|]; intros H; try reflexivity.
  exfalso; apply H; reflexivity.
Qed.

Lemma eq_str_text (f : field string) (s : string) :
  eq_str (get_or f "") s = String.eqb (text f) s \/ s = "".
Proof.
  destruct f as [| |t]; simpl.
  - left; reflexivity.
  - destruct s; [right; reflexivity | left; reflexivity].
  - left; reflexivity.
Qed.

Lemma scan_release_step (iso : field string) (st : info) (e : Tmdb.release_date_entry) :
  never_empty st ->
  scan_release (get_or iso "") st e
  = (if is_digital e then info_step st (text iso, e) else st)
  /\ never_empty (if is_digital e then info_step st (text iso, e) else st).
Proof.
  intros [Hd Hc]. destruct st as [d c]; simpl in Hd, Hc.
  unfold scan_release, is_digital, info_step, eq_int, RELEASE_TYPE_DIGITAL.
  destruct e as [ty date cert]; simpl.
  destruct ty as [| |n]; simpl; try (split; [reflexivity | split; assumption]).
  destruct (n =? 4)%Z; [| split; [reflexivity | split; assumption]].
  assert (Hdate : (if truthy (get_or date "") && negb (truthy d)
                   then option_map (slice_to 10) (get_or date "") else d)
                  = date_step d (text date)).
  { unfold date_step. rewrite (truthy_recorded d Hd).
    destruct d as [d0|]; [rewrite andb_false_r; reflexivity|].
    rewrite andb_true_r.
    destruct date as [| |s]; simpl; try reflexivity.
    rewrite <- truthy_nonempty. change (truthy (Some s)) with (truthy s).
    destruct (truthy s); reflexivity. }
  assert (Hcert : (if truthy (get_or cert "")
                   then if eq_str (get_or iso "") "US" then get_or cert ""
                        else if negb (truthy c) then get_or cert "" else c
                   else c)
                  = tie_break_step c (text iso, text cert)).
  { unfold tie_break_step. rewrite (truthy_recorded c Hc).
    destruct (eq_str_text iso "US") as [-> | Habs]; [| discriminate Habs].
    destruct cert as [| |s]; simpl; try reflexivity.
    rewrite <- truthy_nonempty. change (truthy (Some s)) with (truthy s).
    destruct (truthy s) eqn:Hs; [| reflexivity].
    destruct (String.eqb (text iso) "US"); [reflexivity|].
    destruct c; reflexivity. }
  rewrite Hdate, Hcert. split; [reflexivity|].
  split; simpl.
  - unfold date_step. destruct d as [d0|]; [exact Hd|].
    destruct (nonempty (text date)) eqn:Hn; [| discriminate].
    apply nonempty_true in Hn. intros [= H]. revert H. apply slice_to_nonempty, Hn.
  - unfold tie_break_step.
    destruct (nonempty (text cert)) eqn:Hn; [| exact Hc].
    apply nonempty_true in Hn.
    destruct (String.eqb (text iso) "US"); [congruence|].
    destruct c; [exact Hc | congruence].
Qed.

(** The digital entries of one country group, tagged with its code. *)
Lemma scan_entries (iso : field string) (es : list Tmdb.release_date_entry) :
  forall st, never_empty st ->
    fold_left (scan_release (get_or iso "")) es st
    = fold_left info_step
        (map (fun e => (text iso, e)) (List.filter is_digital es)) st
    /\ never_empty
         (fold_left info_step
            (map (fun e => (text iso, e)) (List.filter is_digital es)) st).
Proof.
  intros st Hst.
  rewrite <- (fold_left_filter_map is_digital (fun e => (text iso, e)) info_step).
  apply (fold_left_ext_inv never_empty); [| exact Hst].
  intros s e Hs. apply scan_release_step, Hs.
Qed.

Lemma scan_country_spec (st : info) (c : Tmdb.country_releases) :
  never_empty st ->
  scan_country st c
  = (if has_entries c then Ok (fold_left info_step (tagged c) st)
     else Raise TypeError)
  /\ never_empty (fold_left info_step (tagged c) st).
Proof.
  intros Hst. unfold scan_country, has_entries, tagged, entries.
  destruct c as [iso rd]; simpl.
  destruct rd as [| |es]; simpl.
  - split; [reflexivity | exact Hst].
  - split; [reflexivity | exact Hst].
  - destruct (scan_entries iso es st Hst) as [-> Hi]. split; [reflexivity | exact Hi].
Qed.

Lemma scan_countries (cs : list Tmdb.country_releases) :
  forall st, never_empty st ->
    match for_each cs scan_country st with
    | Ok st' => forallb has_entries cs = true
                /\ st' = fold_left info_step (flat_map tagged cs) st
    | Raise _ => forallb has_entries cs = false
    end.
Proof.
  induction cs as [|c cs IH]; intros st Hst; simpl.
  - split; reflexivity.
  - destruct (scan_country_spec st c Hst) as [-> Hi].
    destruct (has_entries c); simpl; [| reflexivity].
    specialize (IH _ Hi). rewrite fold_left_app.
    destruct (for_each cs scan_country _); exact IH.
Qed.

Lemma never_empty_init : never_empty (None, None).
Proof. split; discriminate. Qed.

(** The scan returns the two folds over the digital entries, or raises on a
    document with a [null] container. *)
Lemma find_digital_release_info_spec (movie : Tmdb.movie) :
  match _find_digital_release_info movie with
  | Ok st => well_formed movie = true
             /\ st = fold_left info_step (digital_entries movie) (None, None)
  | Raise _ => well_formed movie = false
  end.
Proof.
  unfold _find_digital_release_info, well_formed, digital_entries, countries.
  destruct (Tmdb.movie_release_dates movie) as [| |doc]; simpl.
  - split; reflexivity.
  - reflexivity.
  - destruct (Tmdb.results doc) as [| |cs]; simpl.
    + split; reflexivity.
    + reflexivity.
    + exact (scan_countries cs (None, None) never_empty_init).
Qed.

Lemma fold_info_step (l : list (string * Tmdb.release_date_entry)) :
  forall d c,
    fold_left info_step l (d, c)
    = (fold_left date_step (map (fun ce => text (Tmdb.release_date (snd ce))) l) d,
       fold_left tie_break_step
         (map (fun ce => (fst ce, text (Tmdb.certification (snd ce)))) l) c).
Proof.
  induction l as [|ce l IH]; intros d c; simpl; [reflexivity|].
  unfold info_step at 2; simpl. apply IH.
Qed.

(** The first-seen fold in closed form. *)
Lemma fold_date_step (dates : list string) :
  forall d, fold_left date_step dates d
            = match d with
              | Some _ => d
              | None => option_map (slice_to 10) (head (List.filter nonempty dates))
              end.
Proof.
  induction dates as [|x dates IH]; intros d; simpl.
  - destruct d; reflexivity.
  - rewrite IH. destruct d as [d0|]; simpl; [reflexivity|].
    destruct (nonempty x); reflexivity.
Qed.

Lemma tie_break_snoc (es : list (string * string)) (country cert : string) :
  tie_break (es ++ [(country, cert)])
  = tie_break_step (tie_break es) (country, cert).
Proof. unfold tie_break. rewrite fold_left_app. reflexivity. Qed.

End ScanFacts.

(** The policy in closed form: the last non-empty "US" certification when
    there is one, otherwise the first non-empty certification. *)
Lemma tie_break_closed :
  forall es : list (string * string),
    Spec.tie_break es
    = match last (List.filter
                    (fun e => String.eqb (fst e) "US" && Spec.nonempty (snd e)) es) with
      | Some e => Some (snd e)
      | None =>
          option_map snd (head (List.filter (fun e => Spec.nonempty (snd e)) es))
      end.
Proof.
  intros es.
  induction es as [|[country cert] es IH] using rev_ind; [reflexivity|].
  rewrite ScanFacts.tie_break_snoc, IH, !List.filter_app. simpl.
  destruct (Spec.nonempty cert) eqn:Hn; simpl.
  - destruct (String.eqb country "US") eqn:Hus; simpl.
    + rewrite last_snoc. reflexivity.
    + rewrite app_nil_r.
      destruct (last (List.filter _ es)) as [e|]; [reflexivity|].
      destruct (List.filter (fun e => Spec.nonempty (snd e)) es) as [|e l];
        reflexivity.
  - rewrite andb_false_r, !app_nil_r. reflexivity.
Qed.

(** C1: the certification [_find_digital_release_info] resolves is the
    tie-break policy folded over the digital entries in catalog order (the scan
    raises only on a document with a [null] container); the policy starts from
    nothing recorded and, entry by entry, lets a non-empty "US" certification
    overwrite and records a non-empty certification of another country only
    when none is recorded; [("FR","12"); ("US","R")] resolves to "R" and
    [("FR","12")] alone to "12". *)
Theorem C1_certification_tie_break :
  (forall movie : Tmdb.movie,
     match ReleaseChecker._find_digital_release_info movie with
     | Ok (_, certification) =>
         certification = Spec.tie_break (Spec.digital_certifications movie)
     | Raise _ => Spec.well_formed movie = false
     end)
  /\ Spec.tie_break [] = None
  /\ (forall (es : list (string * string)) (country cert : string),
        Spec.tie_break (es ++ [(country, cert)])
        = if String.eqb cert "" then Spec.tie_break es
          else if String.eqb country "US" then Some cert
          else match Spec.tie_break es with
               | Some recorded => Some recorded
               | None => Some cert
               end)
  /\ ReleaseChecker._find_digital_release_info
       (Spec.detail_of [("FR", "12"); ("US", "R")]) = Ok (None, Some "R")
  /\ ReleaseChecker._find_digital_release_info
       (Spec.detail_of [("FR", "12")]) = Ok (None, Some "12").
Proof.
  split; [| split; [reflexivity | split; [| split; reflexivity]]].
  - intros movie.
    pose proof (ScanFacts.find_digital_release_info_spec movie) as H.
    destruct (ReleaseChecker._find_digital_release_info movie) as [[d c]|e];
      [| exact H].
    destruct H as [_ H]. rewrite ScanFacts.fold_info_step in H.
    injection H as _ ->. reflexivity.
  - intros es country cert. rewrite ScanFacts.tie_break_snoc.
    unfold Spec.tie_break_step, Spec.nonempty.
    destruct (String.eqb cert ""); simpl; [reflexivity|].
    destruct (String.eqb country "US"); [reflexivity|].
    destruct (Spec.tie_break es); reflexivity.
Qed.

Lemma tie_break_from (es : list (string * string)) :
  forall recorded,
    fold_left Spec.tie_break_step es recorded = None
    <-> recorded = None /\ Forall (fun e => snd e = "") es.
Proof.
  induction es as [|[country cert] es IH]; intros recorded; simpl.
  - split; [intros ->; split; [reflexivity | constructor] | intros [-> _]; reflexivity].
  - rewrite IH, Forall_cons_iff. simpl.
    destruct (Spec.nonempty cert) eqn:Hn.
    + apply ScanFacts.nonempty_true in Hn.
      split; [| intros [_ [Hc _]]; contradiction].
      destruct (String.eqb country "US"); [intros [[=] _]|].
      destruct recorded; intros [[=] _].
    + assert (cert = "") as ->.
      { unfold Spec.nonempty in Hn. apply negb_false_iff in Hn.
        apply String.eqb_eq, Hn. }
      tauto.
Qed.

Lemma head_filter_holds {A} (p : A -> bool) (l : list A) (x : A) :
  head (List.filter p l) = Some x -> p x = true.
Proof.
  induction l as [|y l IH]; simpl; [discriminate|].
  destruct (p y) eqn:Hy; simpl; [intros [= <-]; exact Hy | exact IH].
Qed.

(** The date the scan resolves, and what [or] then picks. *)
Lemma resolved_date_or (dates : list string) (generic : option string) :
  py_or (option_map (slice_to 10) (head (List.filter Spec.nonempty dates))) generic
  = match head (List.filter Spec.nonempty dates) with
    | Some d => Some (slice_to 10 d)
    | None => generic
    end.
Proof.
  destruct (head (List.filter Spec.nonempty dates)) as [d|] eqn:Hd; [| reflexivity].
  apply head_filter_holds, ScanFacts.nonempty_true in Hd.
  unfold py_or; simpl. destruct d as [|c d]; [contradiction | reflexivity].
Qed.

(** C6: the release built from a detail document carries, as its date, the
    first non-empty release date among the digital entries in catalog order,
    cut to its first ten characters, and the document's generic release date
    when no digital entry has one; its certification is [None] exactly when no
    digital entry has a certification.  Building raises only on a document
    with a [null] container, and [_get_movie_with_release_dates] returns the
    release built from the document the catalog answers with. *)
Theorem C6_digital_release_date :
  (forall movie : Tmdb.movie,
     match ReleaseChecker.build_release movie with
     | Ok r =>
         release_date r
         = store (match head (List.filter Spec.nonempty (Spec.digital_dates movie)) with
                  | Some d => Some (slice_to 10 d)
                  | None => get (Tmdb.movie_release_date movie)
                  end)
         /\ (certification r = Null
             <-> Forall (fun e => snd e = "") (Spec.digital_certifications movie))
     | Raise _ =>
         Spec.well_formed movie = false \/ Tmdb.movie_genres movie = Null
     end)
  /\ (forall (catalog : Http.request unit -> result (Http.response Tmdb.movie))
             (key : string) (id : Z) (response : Http.response Tmdb.movie)
             (movie : Tmdb.movie),
        catalog (ReleaseChecker.detail_request key id) = Ok response ->
        Http.raise_for_status response = Ok tt ->
        Http.body response = Some movie ->
        ReleaseChecker._get_movie_with_release_dates catalog key id
        = match ReleaseChecker.build_release movie with
          | Ok r => Some r
          | Raise _ => None
          end)
  /\ (forall pairs : list (string * string),
        Forall (fun e => snd e = "") pairs ->
        exists r, ReleaseChecker.build_release (Spec.detail_of pairs) = Ok r
                  /\ release_date r = Val "2026-01-10"
                  /\ certification r = Null)
  /\ (exists r, ReleaseChecker.build_release Spec.three_countries = Ok r
                /\ release_date r = Val "2026-02-01"
                /\ certification r = Val "PG-13").
Proof.
  assert (Hbuild : forall movie : Tmdb.movie,
     match ReleaseChecker.build_release movie with
     | Ok r =>
         release_date r
         = store (match head (List.filter Spec.nonempty (Spec.digital_dates movie)) with
                  | Some d => Some (slice_to 10 d)
                  | None => get (Tmdb.movie_release_date movie)
                  end)
         /\ (certification r = Null
             <-> Forall (fun e => snd e = "") (Spec.digital_certifications movie))
     | Raise _ =>
         Spec.well_formed movie = false \/ Tmdb.movie_genres movie = Null
     end).
  { intros movie. unfold ReleaseChecker.build_release.
    pose proof (ScanFacts.find_digital_release_info_spec movie) as H.
    destruct (ReleaseChecker._find_digital_release_info movie) as [[d c]|e]; simpl;
      [| left; exact H].
    destruct H as [_ H]. rewrite ScanFacts.fold_info_step in H.
    injection H as Hd Hc. rewrite ScanFacts.fold_date_step in Hd.
    fold (Spec.digital_dates movie) in Hd.
    fold (Spec.digital_certifications movie) in Hc.
    assert (Hdate : store (py_or d (get (Tmdb.movie_release_date movie)))
                    = store (match head (List.filter Spec.nonempty (Spec.digital_dates movie)) with
                             | Some d => Some (slice_to 10 d)
                             | None => get (Tmdb.movie_release_date movie)
                             end)).
    { rewrite Hd, resolved_date_or. reflexivity. }
    assert (Hcert : store c = Null
                    <-> Forall (fun e => snd e = "") (Spec.digital_certifications movie)).
    { pose proof (tie_break_from (Spec.digital_certifications movie) None) as Ht.
      rewrite <- Hc in Ht. destruct c as [s|]; simpl.
      - split; [discriminate|]. intros HF.
        destruct Ht as [_ Ht]. specialize (Ht (conj eq_refl HF)). discriminate Ht.
      - split; [intros _; apply Ht; reflexivity | reflexivity]. }
    destruct (Tmdb.movie_genres movie) as [| |gs] eqn:Hg; simpl;
      try (right; reflexivity); split; assumption. }
  split; [exact Hbuild | split; [| split]].
  - intros catalog key id response movie Hc Hs Hb.
    unfold ReleaseChecker._get_movie_with_release_dates.
    rewrite Hc. simpl. rewrite Hs. simpl.
    unfold Http.json_of. rewrite Hb. simpl. reflexivity.
  - intros pairs Hp. specialize (Hbuild (Spec.detail_of pairs)).
    destruct (ReleaseChecker.build_release (Spec.detail_of pairs)) as [r|e].
    + exists r. split; [reflexivity|]. destruct Hbuild as [Hd Hc]. split.
      * rewrite Hd.
        replace (List.filter Spec.nonempty (Spec.digital_dates (Spec.detail_of pairs)))
          with (@nil string); [reflexivity|].
        unfold Spec.digital_dates, Spec.digital_entries, Spec.countries. simpl.
        clear. induction pairs as [|p pairs IH]; simpl; [reflexivity | exact IH].
      * apply Hc.
        unfold Spec.digital_certifications, Spec.digital_entries, Spec.countries.
        simpl. clear -Hp.
        induction Hp as [|p pairs Hp1 Hp IH]; simpl; constructor; assumption.
    + exfalso. destruct Hbuild as [H|H]; [| discriminate H].
      revert H. unfold Spec.well_formed. simpl. clear.
      induction pairs as [|p pairs IH]; simpl; [discriminate | exact IH].
  - eexists. split; [vm_compute; reflexivity | split; reflexivity].
Qed.

(** ** Text: matching that ignores case *)

Module CaseFacts.
Import FilterSpec.

Lemma in_all_chars (c : ascii) : In c all_chars.
Proof.
  assert (H : existsb (Ascii.eqb c) all_chars = true)
    by (destruct c as [[] [] [] [] [] [] [] []]; vm_compute; reflexivity).
  apply existsb_exists in H. destruct H as [d [Hd He]].
  apply Ascii.eqb_eq in He. subst d. exact Hd.
Qed.

(** A property of two characters holds for all of them when it holds on the
    256 codes. *)
Lemma for_all_chars (P : ascii -> ascii -> bool) :
  forallb (fun c1 => forallb (P c1) all_chars) all_chars = true ->
  forall c1 c2, P c1 c2 = true.
Proof.
  intros H c1 c2.
  rewrite forallb_forall in H. specialize (H c1 (in_all_chars c1)).
  rewrite forallb_forall in H. exact (H c2 (in_all_chars c2)).
Qed.

Lemma case_folding_same (c1 c2 : ascii) :
  Bool.eqb (Ascii.eqb (upper_char c1) (upper_char c2)) (same_char c1 c2)
  && Bool.eqb (Ascii.eqb (lower_char c1) (lower_char c2)) (same_char c1 c2) = true.
Proof. revert c1 c2. apply for_all_chars. vm_compute. reflexivity. Qed.

Lemma upper_char_same (c1 c2 : ascii) :
  Ascii.eqb (upper_char c1) (upper_char c2) = same_char c1 c2.
Proof.
  apply eqb_prop. pose proof (case_folding_same c1 c2) as H.
  apply andb_true_iff in H. apply H.
Qed.

Lemma lower_char_same (c1 c2 : ascii) :
  Ascii.eqb (lower_char c1) (lower_char c2) = same_char c1 c2.
Proof.
  apply eqb_prop. pose proof (case_folding_same c1 c2) as H.
  apply andb_true_iff in H. apply H.
Qed.

(** [a.upper() == b.upper()] is equality ignoring case. *)
Lemma upper_eqb (a : string) :
  forall b, String.eqb (upper a) (upper b) = equal_ignoring_case a b.
Proof.
  induction a as [|c a IH]; intros [|d b]; simpl; try reflexivity.
  rewrite upper_char_same, IH.
  destruct (same_char c d); reflexivity.
Qed.

(** [a.lower() == b.lower()] is equality ignoring case. *)
Lemma lower_eqb (a : string) :
  forall b, String.eqb (lower a) (lower b) = equal_ignoring_case a b.
Proof.
  induction a as [|c a IH]; intros [|d b]; simpl; try reflexivity.
  rewrite lower_char_same, IH.
  destruct (same_char c d); reflexivity.
Qed.

Lemma str_in_true (x : string) (l : list string) :
  str_in x l = true <-> In x l.
Proof.
  unfold str_in. rewrite existsb_exists. split.
  - intros [y [Hy He]]. apply String.eqb_eq in He. subst y. exact Hy.
  - intros H. exists x. split; [exact H | apply String.eqb_refl].
Qed.

(** Membership after normalising both sides to one case. *)
Lemma str_in_upper (c : string) (l : list string) :
  str_in (upper c) (map upper l) = true
  <-> exists e, In e l /\ equal_ignoring_case c e = true.
Proof.
  unfold str_in. rewrite existsb_exists. split.
  - intros [y [Hy He]]. apply in_map_iff in Hy. destruct Hy as [e [<- He']].
    exists e. split; [exact He' | rewrite <- upper_eqb; exact He].
  - intros [e [He Hc]]. exists (upper e). split; [apply in_map; exact He|].
    rewrite upper_eqb. exact Hc.
Qed.

Lemma str_in_lower (g : string) (l : list string) :
  str_in (lower g) (map lower l) = true
  <-> exists e, In e l /\ equal_ignoring_case g e = true.
Proof.
  unfold str_in. rewrite existsb_exists. split.
  - intros [y [Hy He]]. apply in_map_iff in Hy. destruct Hy as [e [<- He']].
    exists e. split; [exact He' | rewrite <- lower_eqb; exact He].
  - intros [e [He Hc]]. exists (lower e). split; [apply in_map; exact He|].
    rewrite lower_eqb. exact Hc.
Qed.

End CaseFacts.

(** ** filters.py: what each stage keeps *)

Module FilterFacts.
Import Filters FilterSpec.

Lemma fold_append_if {A} (q : A -> bool) (l : list A) :
  forall acc, fold_left (fun acc x => append_if (q x) acc x) l acc
              = acc ++ List.filter q l.
Proof.
  induction l as [|x l IH]; intros acc; simpl.
  - symmetry; apply app_nil_r.
  - rewrite IH. unfold append_if. destruct (q x); simpl.
    + rewrite <- app_assoc. reflexivity.
    + reflexivity.
Qed.

(** A filtering loop whose test never raises. *)
Lemma keep_loop_pure {A} (q : A -> bool) (l : list A) :
  for_each l (fun filtered x => Ok (append_if (q x) filtered x)) []
  = Ok (List.filter q l).
Proof.
  rewrite (for_each_pure _ (fun acc x => append_if (q x) acc x)) by reflexivity.
  rewrite fold_append_if. reflexivity.
Qed.

(** A filtering loop whose test can raise: it returns the elements the test
    holds for, or raises what the test raised on some element. *)
Lemma keep_loop {A} (p : A -> result bool) (body : list A -> A -> result (list A)) :
  (forall acc x, body acc x = (keep ← p x; Ok (append_if keep acc x))) ->
  forall l acc,
    match for_each l body acc with
    | Ok out => out = acc ++ List.filter (fun x => holds (p x)) l
                /\ Forall (fun x => exists b, p x = Ok b) l
    | Raise e => Exists (fun x => p x = Raise e) l
    end.
Proof.
  intros Hbody. induction l as [|x l IH]; intros acc.
  - simpl. split; [symmetry; apply app_nil_r | constructor].
  - cbn [for_each List.filter]. rewrite Hbody.
    destruct (p x) as [b|e] eqn:Hp; cbn [mbind result_bind holds].
    + specialize (IH (append_if b acc x)).
      destruct (for_each l body (append_if b acc x)) as [out|e].
      * destruct IH as [-> HF]. split.
        -- unfold append_if. destruct b; simpl; [rewrite <- app_assoc|]; reflexivity.
        -- constructor; [exists b; exact Hp | exact HF].
      * apply Exists_cons_tl, IH.
    + apply Exists_cons_hd. exact Hp.
Qed.

Lemma filter_by_allowed_languages_spec (releases : list release) (allowed : list string) :
  _filter_by_allowed_languages releases allowed
  = Ok (List.filter (fun r => opt_str_in (language r) allowed) releases).
Proof. apply (keep_loop_pure (fun r => opt_str_in (language r) allowed)). Qed.

Lemma filter_by_excluded_certifications_spec (releases : list release)
    (excluded : list string) :
  _filter_by_excluded_certifications releases excluded
  = Ok (List.filter
          (fun r => negb (cert_excluded (get_or (certification r) "") (map upper excluded)))
          releases).
Proof.
  apply (keep_loop_pure
           (fun r => negb (cert_excluded (get_or (certification r) "") (map upper excluded)))).
Qed.

Lemma filter_by_tmdb_rating_spec (self : filters) (releases : list release) :
  match _filter_by_tmdb_rating self releases with
  | Ok out => out = List.filter (fun r => holds (rating_test self r)) releases
              /\ Forall (fun r => exists b, rating_test self r = Ok b) releases
  | Raise e => Exists (fun r => rating_test self r = Raise e) releases
  end.
Proof.
  apply (keep_loop (rating_test self)). intros acc x. reflexivity.
Qed.

Lemma filter_by_excluded_genres_spec (releases : list release) (excluded : list string) :
  match _filter_by_excluded_genres releases excluded with
  | Ok out => out = List.filter (fun r => holds (genre_test excluded r)) releases
              /\ Forall (fun r => exists b, genre_test excluded r = Ok b) releases
  | Raise e => Exists (fun r => genre_test excluded r = Raise e) releases
  end.
Proof.
  apply (keep_loop (genre_test excluded)). intros acc x.
  unfold genre_test. destruct (lower_all (get_or (genres x) [])); reflexivity.
Qed.

End FilterFacts.

Module StageFacts.
Import Filters FilterSpec FilterFacts.

Lemma filter_all {A} (l : list A) : l = List.filter (fun _ => true) l.
Proof. symmetry. apply forallb_filter_id, forallb_forall. reflexivity. Qed.

(** A stage that returns has kept exactly what [stage_keeps] says, in order. *)
Lemma run_stage_sound (self : filters) (s : stage) (l out : list release) :
  run_stage self s l = Ok out -> out = List.filter (stage_keeps self s) l.
Proof.
  destruct s; unfold run_stage, stage_keeps.
  - destruct (truthy (get (exclude_adult self))); intros [= <-];
      [reflexivity | apply filter_all].
  - destruct (gt (get_or (min_tmdb_rating self) 0%Q) (Some 0%Q)) as [[]|e];
      cbn [mbind result_bind holds]; try discriminate.
    + pose proof (filter_by_tmdb_rating_spec self l) as H.
      destruct (_filter_by_tmdb_rating self l); [| discriminate].
      intros [= <-]. apply H.
    + intros [= <-]. apply filter_all.
  - destruct (allowed_languages self) as [| |[|x xs]]; cbn [get_or configured];
      try (intros [= <-]; apply filter_all).
    rewrite filter_by_allowed_languages_spec. intros [= <-]. reflexivity.
  - destruct (excluded_genres self) as [| |[|x xs]]; cbn [get_or configured];
      try (intros [= <-]; apply filter_all).
    pose proof (filter_by_excluded_genres_spec l (x :: xs)) as H.
    destruct (_filter_by_excluded_genres l (x :: xs)); [| discriminate].
    intros [= <-]. apply H.
  - destruct (excluded_certifications self) as [| |[|x xs]]; cbn [get_or configured];
      try (intros [= <-]; apply filter_all).
    rewrite filter_by_excluded_certifications_spec. intros [= <-]. reflexivity.
Qed.

(** [apply_filters] is the five stages in the fixed order. *)
Lemma apply_filters_fixed_order (self : filters) (releases : list release) :
  apply_filters self releases = apply_in_order self fixed_order releases.
Proof.
  unfold apply_filters, apply_in_order, fixed_order. cbn [for_each run_stage].
  repeat match goal with
         | |- context [gt ?a ?b] =>
             destruct (gt a b) as [[]|]; cbn [mbind result_bind];
             try reflexivity
         | |- (_ ← ?m; _) = (_ ← ?m; _) =>
             destruct m; cbn [mbind result_bind]; [| reflexivity]
         end.
  all: reflexivity.
Qed.

(** The stages in any order: what returns is what every stage keeps. *)
Lemma apply_in_order_sound (self : filters) (order : list stage) :
  forall l out,
    apply_in_order self order l = Ok out ->
    out = List.filter (fun r => forallb (fun s => stage_keeps self s r) order) l.
Proof.
  unfold apply_in_order.
  induction order as [|s order IH]; intros l out; simpl.
  - intros [= <-]. symmetry. apply forallb_filter_id, forallb_forall. reflexivity.
  - destruct (run_stage self s l) as [mid|e] eqn:Hs; simpl; [| discriminate].
    intros H. apply IH in H. apply run_stage_sound in Hs. subst.
    induction l as [|r l IHl]; simpl; [reflexivity|].
    destruct (stage_keeps self s r); simpl; [| exact IHl].
    destruct (forallb _ order); [f_equal|]; exact IHl.
Qed.

End StageFacts.

(** C5: with no allowed language configured the language stage returns its
    input unchanged; with a non-empty list it returns, in order, exactly the
    releases whose [original_language] is one of the listed codes;
    [apply_filters] with only this option set is this stage; and with
    [allowed_languages = ["en"]] a release whose language is the empty text is
    dropped. *)
Theorem C5_allowed_languages :
  forall (self : Filters.filters) (releases : list release),
    let allowed := FilterSpec.configured (Filters.allowed_languages self) in
    (allowed = [] ->
       Filters.run_stage self Filters.AllowedLanguages releases = Ok releases)
    /\ (allowed <> [] ->
          exists keep : release -> bool,
            Filters.run_stage self Filters.AllowedLanguages releases
            = Ok (List.filter keep releases)
            /\ forall r, keep r = true <-> FilterSpec.language_allowed allowed r)
    /\ Filters.apply_filters
         (FilterSpec.languages_only (Filters.allowed_languages self)) releases
       = Filters.run_stage self Filters.AllowedLanguages releases
    /\ Filters.apply_filters (FilterSpec.languages_only (Val ["en"]))
         [FilterSpec.fixture (Val false) (Val (15 # 2)) (Val "") (Val []) Null]
       = Ok [].
Proof.
  intros self releases allowed. subst allowed.
  split; [| split; [| split; [| reflexivity]]].
  - unfold Filters.run_stage.
    destruct (Filters.allowed_languages self) as [| |[|x xs]]; simpl;
      try reflexivity. discriminate.
  - intros Hne.
    exists (fun r => opt_str_in (FilterSpec.language r)
                       (FilterSpec.configured (Filters.allowed_languages self))).
    split.
    + unfold Filters.run_stage.
      destruct (Filters.allowed_languages self) as [| |[|x xs]]; simpl in *;
        try contradiction.
      apply FilterFacts.filter_by_allowed_languages_spec.
    + intros r. unfold FilterSpec.language_allowed, opt_str_in.
      destruct (FilterSpec.language r) as [code|].
      * rewrite CaseFacts.str_in_true. split.
        -- intros H. exists code. split; [reflexivity | exact H].
        -- intros [c [[= <-] H]]. exact H.
      * split; [discriminate | intros [c [[=] _]]].
  - unfold Filters.apply_filters, Filters.run_stage, FilterSpec.languages_only.
    simpl.
    destruct (Filters.allowed_languages self) as [| |[|x xs]]; simpl;
      try reflexivity.
    rewrite FilterFacts.filter_by_allowed_languages_spec. reflexivity.
Qed.

(** C7: for every release list and every list of excluded certifications (in
    particular every non-empty one) the certification filter returns, never
    raises, and keeps the releases that pass its test, in order.  On ASCII
    text (the excluded certifications and the release's own one) the test
    fails exactly for a release that carries a non-empty certification equal,
    ignoring the case of letters, to an excluded one.  On any text a release
    whose certification is missing, [None] or empty is kept, and one whose
    non-empty certification is itself in the list is dropped.  The
    certification stage of [apply_filters] is this filter whenever the
    configured list is non-empty. *)
Theorem C7_excluded_certifications :
  forall (releases : list release) (excluded_certs : list string),
    (exists keep : release -> bool,
       Filters._filter_by_excluded_certifications releases excluded_certs
       = Ok (List.filter keep releases)
       /\ (Forall (fun e => isascii e = true) excluded_certs ->
           forall r, FilterSpec.ascii_certification r ->
                     (keep r = false
                      <-> FilterSpec.certification_excluded excluded_certs r))
       /\ (forall r, FilterSpec.no_certification r -> keep r = true)
       /\ (forall r cert, certification r = Val cert -> cert <> "" ->
                          In cert excluded_certs -> keep r = false))
    /\ (forall self : Filters.filters,
          FilterSpec.configured (Filters.excluded_certifications self) = excluded_certs ->
          excluded_certs <> [] ->
          Filters.run_stage self Filters.ExcludedCertifications releases
          = Filters._filter_by_excluded_certifications releases excluded_certs)
    /\ Filters._filter_by_excluded_certifications
         [FilterSpec.fixture (Val false) (Val (15 # 2)) (Val "en") (Val []) (Val "R");
          FilterSpec.fixture (Val false) (Val (15 # 2)) (Val "en") (Val []) (Val "");
          FilterSpec.fixture (Val false) (Val (15 # 2)) (Val "en") (Val []) (Val "PG-13")]
         ["r"; "nc-17"]
       = Ok [FilterSpec.fixture (Val false) (Val (15 # 2)) (Val "en") (Val []) (Val "");
             FilterSpec.fixture (Val false) (Val (15 # 2)) (Val "en") (Val []) (Val "PG-13")].
Proof.
  intros releases excluded_certs. split; [| split; [| reflexivity]].
  - exists (fun r => negb (Filters.cert_excluded (get_or (certification r) "")
                             (map upper excluded_certs))).
    split; [apply FilterFacts.filter_by_excluded_certifications_spec |
            split; [| split]].
    + intros _ r _. rewrite negb_false_iff.
      unfold FilterSpec.certification_excluded, Filters.cert_excluded.
      destruct (certification r) as [| |c]; simpl.
      * split; [discriminate | intros [c [e [[=] _]]]].
      * split; [discriminate | intros [c [e [[=] _]]]].
      * destruct c as [|a c]; simpl.
        -- split; [discriminate | intros [c [e [[= <-] [Hc _]]]]; contradiction].
        -- change (String (upper_char a) (upper c)) with (upper (String a c)).
           rewrite CaseFacts.str_in_upper. split.
           ++ intros [e [He Hc]]. exists (String a c), e.
              repeat split; [discriminate | exact He | exact Hc].
           ++ intros [c' [e [[= <-] [_ [He Hc]]]]]. exists e. split; assumption.
    + intros r [H | [H | H]]; rewrite H; reflexivity.
    + intros r cert Hcert Hne Hin. rewrite Hcert, negb_false_iff.
      unfold Filters.cert_excluded. cbn [get_or].
      destruct cert as [|a c]; [contradiction|].
      change (truthy (String a c)) with true. cbv iota.
      apply CaseFacts.str_in_true, in_map, Hin.
  - intros self Hcfg Hne. unfold Filters.run_stage.
    destruct (Filters.excluded_certifications self) as [| |[|x xs]];
      simpl in Hcfg; subst excluded_certs; try contradiction.
    reflexivity.
Qed.

(** What [[g.lower() for g in genres]] returns holds the lowered name of
    every genre. *)
Lemma lower_all_In (gs : list (option string)) (ls : list string) (g : string) :
  mapM (fun g => s ← deref g; Ok (lower s)) gs = Ok ls ->
  In (Some g) gs -> In (lower g) ls.
Proof.
  revert ls. induction gs as [|x gs IH]; intros ls; simpl; [intros _ []|].
  destruct x as [s|]; simpl; [| discriminate].
  destruct (mapM _ gs) as [ls'|e]; simpl; [| discriminate].
  intros [= <-] [[= ->] | H]; [left; reflexivity | right; apply IH; auto].
Qed.

(** A release with an excluded genre fails the genre stage's test. *)
Lemma genre_excluded_not_kept (self : Filters.filters) (r : release) :
  FilterSpec.genre_excluded (FilterSpec.configured (Filters.excluded_genres self)) r ->
  FilterSpec.stage_keeps self Filters.ExcludedGenres r = false.
Proof.
  intros [gs [g [e [Hgs [Hg [He Hc]]]]]].
  unfold FilterSpec.stage_keeps.
  destruct (FilterSpec.configured (Filters.excluded_genres self)) as [|x xs] eqn:Hx;
    [destruct He|].
  unfold FilterSpec.genre_test, Filters.lower_all. rewrite Hgs.
  cbn [get_or iter mbind result_bind].
  destruct (mapM _ gs) as [ls|err] eqn:Hm; cbn [mbind result_bind FilterSpec.holds];
    [| reflexivity].
  apply negb_false_iff, existsb_exists. exists (lower g). split.
  - eapply lower_all_In; eassumption.
  - apply CaseFacts.str_in_lower. exists e. split; assumption.
Qed.

(** C4: there are a release list, a configuration and a permutation of the
    five stages on which the permuted order and the fixed order end
    differently (an adult release whose score is [None]: the fixed order drops
    it and returns, the order that rates first raises [TypeError]); and for
    every release list and configuration, a release that passes the rating
    test and has an excluded genre is in no list [apply_filters] returns,
    as for the release scored 7.5 in the genre "Horror". *)
Theorem C4_stage_order :
  (exists (releases : list release) (self : Filters.filters)
          (order : list Filters.stage),
      Permutation order Filters.fixed_order
      /\ Filters.apply_in_order self order releases
         <> Filters.apply_filters self releases)
  /\ (forall (releases : list release) (self : Filters.filters) (r : release)
             (out : list release),
        In r releases ->
        FilterSpec.passes_rating self r ->
        FilterSpec.genre_excluded
          (FilterSpec.configured (Filters.excluded_genres self)) r ->
        Filters.apply_filters self releases = Ok out ->
        ~ In r out)
  /\ (Filters._filter_by_tmdb_rating FilterSpec.rating_and_genres [FilterSpec.horror]
      = Ok [FilterSpec.horror]
      /\ Filters.apply_filters FilterSpec.rating_and_genres [FilterSpec.horror]
         = Ok []).
Proof.
  split; [| split; [| split; reflexivity]].
  - exists [FilterSpec.adult_unrated], FilterSpec.adult_and_rating,
           FilterSpec.rating_first.
    split; [apply perm_swap | vm_compute; discriminate].
  - intros releases self r out Hin _ Hg Hout Hr.
    rewrite StageFacts.apply_filters_fixed_order in Hout.
    apply StageFacts.apply_in_order_sound in Hout. subst out.
    apply filter_In in Hr. destruct Hr as [_ Hr].
    rewrite forallb_forall in Hr.
    specialize (Hr Filters.ExcludedGenres).
    rewrite (genre_excluded_not_kept self r Hg) in Hr.
    discriminate Hr. unfold Filters.fixed_order. simpl. tauto.
Qed.

(** ** overseerr_requester.py *)

Module OverseerrFacts.
Import Overseerr OverseerrSpec.

(** The status check never raises; it answers whether the server reported
    the item pending or further along, and issues the one GET. *)
Lemma is_already_requested_spec
    (server : list request -> request -> result response)
    (self : OverseerrRequester) (id : Z) (tr : list request) :
  _is_already_requested server self id tr
  = (Ok (reports_requested (server tr (status_request self id))),
     tr ++ [status_request self id]).
Proof.
  unfold _is_already_requested, reports_requested, reported_status,
    Eff.try_catch, Eff.bind, requests_get, Eff.call, Eff.lift, Eff.ret.
  fold (status_request self id).
  destruct (server tr (status_request self id)) as [r|e]; [| reflexivity].
  destruct (Http.status_code r =? 200)%Z; [| reflexivity].
  unfold Http.json_of. destruct (Http.body r) as [data|]; [| reflexivity].
  destruct (mediaInfo data) as [| |info]; simpl; try reflexivity.
  unfold pending_or_further.
  destruct (get (status info)) as [s|]; [| reflexivity].
  destruct (2 <=? s)%Z eqn:Hs.
  - assert (truthy s = true) as ->; [| reflexivity].
    unfold truthy, truthy_Z. apply Z.leb_le in Hs.
    destruct (Z.eqb_spec s 0); [lia | reflexivity].
  - rewrite andb_false_r. reflexivity.
Qed.

End OverseerrFacts.

(** C2: [request_media] never raises.  For a release with a (non-zero)
    [tmdb_id], when the status check does not report the item requested, the
    sink submits once and returns true exactly when the submission is answered
    with status 200, 201 or 409; any other status and any failure of the
    request give false.  When the status check reports a status ordinal of 2 or
    more, it returns false and the only request issued is the status check. *)
Theorem C2_request_media :
  forall (server : list Overseerr.request -> Overseerr.request
                   -> result Overseerr.response)
         (self : Overseerr.OverseerrRequester) (release : release)
         (tr : list Overseerr.request),
    (exists b, fst (Overseerr.request_media server self release tr) = Ok b)
    /\ (forall id : Z,
          get (tmdb_id release) = Some id -> id <> 0%Z ->
          let check := OverseerrSpec.status_request self id in
          let submit := OverseerrSpec.submit_request self id in
          Overseerr._is_already_requested server self id tr
          = (Ok (OverseerrSpec.reports_requested (server tr check)), tr ++ [check])
          /\ if OverseerrSpec.reports_requested (server tr check)
             then Overseerr.request_media server self release tr
                  = (Ok false, tr ++ [check])
             else snd (Overseerr.request_media server self release tr)
                  = tr ++ [check; submit]
                  /\ (fst (Overseerr.request_media server self release tr) = Ok true
                      <-> exists response,
                            server (tr ++ [check]) submit = Ok response
                            /\ In (Http.status_code response) [200; 201; 409]%Z)
                  /\ (forall e, server (tr ++ [check]) submit = Raise e ->
                                fst (Overseerr.request_media server self release tr)
                                = Ok false))
    /\ (forall answer,
          OverseerrSpec.reports_requested answer = true
          <-> exists s, OverseerrSpec.reported_status answer = Some s /\ (2 <= s)%Z)
    /\ (let release := OverseerrSpec.identified (Val 123%Z) in
        let check := OverseerrSpec.status_request OverseerrSpec.sink 123 in
        let submit := OverseerrSpec.submit_request OverseerrSpec.sink 123 in
        Overseerr.request_media (OverseerrSpec.answering (Val 1%Z) 409)
          OverseerrSpec.sink release [] = (Ok true, [check; submit])
        /\ Overseerr.request_media (OverseerrSpec.answering Absent 201)
             OverseerrSpec.sink release [] = (Ok true, [check; submit])
        /\ Overseerr.request_media (OverseerrSpec.answering (Val 1%Z) 500)
             OverseerrSpec.sink release [] = (Ok false, [check; submit])
        /\ Overseerr.request_media OverseerrSpec.unreachable
             OverseerrSpec.sink release [] = (Ok false, [check; submit])
        /\ Overseerr.request_media (OverseerrSpec.answering (Val 2%Z) 200)
             OverseerrSpec.sink release [] = (Ok false, [check])).
Proof.
  intros server self release tr.
  assert (Hrun : forall id : Z,
            get (tmdb_id release) = Some id -> id <> 0%Z ->
            Overseerr.request_media server self release tr
            = if OverseerrSpec.reports_requested
                   (server tr (OverseerrSpec.status_request self id))
              then (Ok false, tr ++ [OverseerrSpec.status_request self id])
              else (Ok match server (tr ++ [OverseerrSpec.status_request self id])
                                    (OverseerrSpec.submit_request self id) with
                       | Ok response =>
                           existsb (Z.eqb (Http.status_code response)) [200; 201; 409]%Z
                       | Raise _ => false
                       end,
                    tr ++ [OverseerrSpec.status_request self id;
                           OverseerrSpec.submit_request self id])).
  { intros id Hid Hnz.
    unfold Overseerr.request_media. rewrite Hid.
    unfold Eff.try_catch, Eff.bind at 1.
    assert (truthy id = true) as Ht.
    { unfold truthy, truthy_Z. destruct (Z.eqb_spec id 0); [contradiction | reflexivity]. }
    rewrite Ht. cbn [negb]. unfold Eff.bind at 1.
    rewrite OverseerrFacts.is_already_requested_spec.
    destruct (OverseerrSpec.reports_requested _); [reflexivity|].
    unfold Eff.bind, Overseerr.requests_post, Eff.call, Eff.ret.
    fold (OverseerrSpec.submit_request self id).
    rewrite <- app_assoc. cbn [app].
    destruct (server _ (OverseerrSpec.submit_request self id)) as [response|e].
    - cbn [existsb]. rewrite orb_false_r.
      destruct (Http.status_code response =? 200)%Z; cbn [orb];
        [reflexivity|].
      destruct (Http.status_code response =? 201)%Z; cbn [orb];
        [reflexivity|].
      destruct (Http.status_code response =? 409)%Z; reflexivity.
    - destruct (is_request_exception e); reflexivity. }
  split; [| split; [| split]].
  - destruct (get (tmdb_id release)) as [id|] eqn:Hid.
    + destruct (Z.eq_dec id 0%Z) as [Hz | Hnz].
      * exists false. unfold Overseerr.request_media. rewrite Hid, Hz. reflexivity.
      * rewrite (Hrun id eq_refl Hnz).
        destruct (OverseerrSpec.reports_requested _); eexists; reflexivity.
    + exists false. unfold Overseerr.request_media. rewrite Hid. reflexivity.
  - intros id Hid Hnz check submit.
    split; [apply OverseerrFacts.is_already_requested_spec|].
    rewrite (Hrun id Hid Hnz). subst check submit.
    destruct (OverseerrSpec.reports_requested _); [reflexivity|].
    cbn [fst snd]. split; [reflexivity | split].
    + destruct (server _ (OverseerrSpec.submit_request self id)) as [response|e].
      * split.
        -- intros H. injection H as H. exists response. split; [reflexivity|].
           cbn [existsb] in H.
           rewrite orb_false_r, !orb_true_iff, !Z.eqb_eq in H.
           cbn [In]. lia.
        -- intros [r' [Heq H]]. injection Heq as <-. f_equal.
           cbn [existsb]. rewrite orb_false_r, !orb_true_iff, !Z.eqb_eq.
           cbn [In] in H. lia.
      * split; [discriminate | intros [r' [[=] _]]].
    + intros e ->. reflexivity.
  - intros answer. unfold OverseerrSpec.reports_requested.
    destruct (OverseerrSpec.reported_status answer) as [s|].
    + rewrite Z.leb_le. split.
      * intros H. exists s. split; [reflexivity | exact H].
      * intros [s' [[= <-] H]]. exact H.
    + split; [discriminate | intros [s [[=] _]]].
  - repeat split; reflexivity.
Qed.

(** ** riven_requester.py *)

Module RivenFacts.
Import Riven RivenSpec.

(** One identifier is submitted for each release that carries one. *)
Lemma extract_tmdb_ids_length (releases : list release) :
  length (extract_tmdb_ids releases) = length (List.filter carries_id releases).
Proof. unfold extract_tmdb_ids. rewrite length_map. reflexivity. Qed.

Lemma extract_all (releases : list release) :
  Forall (fun r => carries_id r = true) releases ->
  length (extract_tmdb_ids releases) = length releases.
Proof.
  intros H. rewrite extract_tmdb_ids_length. f_equal.
  apply forallb_filter_id, forallb_forall.
  intros x Hx. exact (proj1 (List.Forall_forall _ _) H x Hx).
Qed.

(** [_add_items] never raises: without identifiers it issues no request;
    otherwise it issues the one request and reads the answer. *)
Lemma add_items_spec (server : list request -> request -> result response)
    (self : RivenRequester) (media_type : string) (releases : list release)
    (tr : list request) :
  _add_items server self media_type releases tr
  = match extract_tmdb_ids releases with
    | [] => (Ok {| success := 0; failed := length releases; results := [] |}, tr)
    | ids =>
        let submit := submit_request self media_type ids in
        (Ok (outcome (server tr submit) releases), tr ++ [submit])
    end.
Proof.
  unfold _add_items, outcome, Eff.try_catch.
  destruct (extract_tmdb_ids releases) as [|id ids] eqn:Hids; [reflexivity|].
  cbn [truthy truthy_list negb].
  unfold Eff.bind, requests_post, Eff.call, Eff.ret.
  fold (submit_request self media_type (id :: ids)). cbv zeta.
  destruct (server tr (submit_request self media_type (id :: ids))) as [response|e].
  - destruct (Http.status_code response =? 200)%Z; [reflexivity|].
    destruct (Http.status_code response =? 404)%Z; [reflexivity|].
    destruct (Http.status_code response =? 422)%Z; reflexivity.
  - destruct (is_request_exception e); reflexivity.
Qed.

End RivenFacts.

(** C3: for a non-empty batch of releases that all carry an identifier,
    [_add_items] submits one identifier per release in one request, never
    raises, and counts all or nothing: a 200 gives [success] the number of
    submitted identifiers and [failed] 0; every other status (404 and 422
    among them) and every failure of the request give [success] 0 and [failed]
    the number of submitted identifiers. *)
Theorem C3_bulk_all_or_nothing :
  forall (server : list Riven.request -> Riven.request -> result Riven.response)
         (self : Riven.RivenRequester) (releases : list release)
         (tr : list Riven.request),
    releases <> [] ->
    Forall (fun r => RivenSpec.carries_id r = true) releases ->
    let ids := Riven.extract_tmdb_ids releases in
    let submit := RivenSpec.submit_request self "movie" ids in
    length ids = length releases
    /\ exists result,
         Riven._add_items server self "movie" releases tr
         = (Ok result, tr ++ [submit])
         /\ RivenSpec.counts result
            = match server tr submit with
              | Ok response =>
                  if (Http.status_code response =? 200)%Z
                  then (length ids, 0%nat)
                  else (0%nat, length ids)
              | Raise _ => (0%nat, length ids)
              end.
Proof.
  intros server self releases tr Hne Hall. cbv zeta.
  pose proof (RivenFacts.extract_all releases Hall) as Hlen.
  split; [exact Hlen|].
  rewrite RivenFacts.add_items_spec.
  unfold RivenSpec.outcome.
  destruct (Riven.extract_tmdb_ids releases) as [|id ids] eqn:Hids.
  - destruct releases; [contradiction | simpl in Hlen; discriminate Hlen].
  - eexists. split; [reflexivity|]. cbv zeta.
    destruct (server tr _) as [response|e].
    + destruct (Http.status_code response =? 200)%Z; [reflexivity|].
      destruct (Http.status_code response =? 404)%Z; [reflexivity|].
      destruct (Http.status_code response =? 422)%Z; reflexivity.
    + unfold RivenSpec.counts. cbn [Riven.success Riven.failed].
      rewrite <- Hlen. reflexivity.
Qed.

(** Two identifiers and a 200: [success] is 2 and [failed] is 0. *)
Lemma C3_two_accepted :
  let releases := [RivenSpec.item (Val "movie") (Val 123%Z);
                   RivenSpec.item (Val "movie") (Val 456%Z)] in
  let ids := Riven.extract_tmdb_ids releases in
  length ids = length releases
  /\ exists result,
       Riven._add_items (RivenSpec.answering 200) RivenSpec.sink "movie" releases []
       = (Ok result, [] ++ [RivenSpec.submit_request RivenSpec.sink "movie" ids])
       /\ RivenSpec.counts result = (2%nat, 0%nat).
Proof.
  exact (C3_bulk_all_or_nothing (RivenSpec.answering 200) RivenSpec.sink
           [RivenSpec.item (Val "movie") (Val 123%Z);
            RivenSpec.item (Val "movie") (Val 456%Z)] []
           ltac:(discriminate) ltac:(repeat constructor)).
Defined.

(** Two identifiers and a 404, a 422, a 500 or no answer: [success] is 0 and
    [failed] is 2. *)
Lemma add_items_two_refused :
  let releases := [RivenSpec.item (Val "movie") (Val 123%Z);
                   RivenSpec.item (Val "movie") (Val 456%Z)] in
  let counts_with server :=
    option_map RivenSpec.counts
      (match fst (Riven._add_items server RivenSpec.sink "movie" releases []) with
       | Ok b => Some b
       | Raise _ => None
       end) in
  counts_with (RivenSpec.answering 404) = Some (0, 2)%nat
  /\ counts_with (RivenSpec.answering 422) = Some (0, 2)%nat
  /\ counts_with (RivenSpec.answering 500) = Some (0, 2)%nat
  /\ counts_with RivenSpec.unreachable = Some (0, 2)%nat.
Proof. repeat split; reflexivity. Qed.

Lemma filter_movie_id (releases : list release) :
  List.filter RivenSpec.carries_id (List.filter Riven.is_movie releases)
  = List.filter (fun r => Riven.is_movie r && RivenSpec.carries_id r) releases.
Proof.
  induction releases as [|r releases IH]; simpl; [reflexivity|].
  destruct (Riven.is_movie r); simpl; [| exact IH].
  destruct (RivenSpec.carries_id r); [f_equal|]; exact IH.
Qed.

(** C10, as stated, fails: with a server that cannot be reached,
    [failed] is the full input length (2) although one of the two releases
    carries a [tmdb_id]. *)
Lemma C10_failed_is_input_length_with_an_id :
  let with_id := RivenSpec.item (Val "movie") (Val 1%Z) in
  let without_id := RivenSpec.item (Val "movie") Absent in
  let releases := [with_id; without_id] in
  fst (Riven.add_media RivenSpec.unreachable RivenSpec.sink releases [])
  = Ok {| Riven.success := 0;
          Riven.failed := length releases;
          Riven.results := [Riven.Error None (Some (Riven.StrOf RequestException))] |}
  /\ In with_id releases
  /\ RivenSpec.carries_id with_id = true.
Proof. split; [reflexivity | split; [left; reflexivity | reflexivity]]. Qed.

(** C10, amended: an enabled sink submits exactly the releases tagged "movie"
    that carry a [tmdb_id], so on a 200 [success] is their number, and
    [success + failed] can be less than the number of releases passed to
    [add_media]; [failed] is the number of movie releases (with or without
    identifier) when none of them carries a [tmdb_id] or when the request
    raises, and the number of submitted identifiers on any status other than
    200.  A sink that is not enabled submits nothing and counts nothing. *)
Theorem C10_add_media_batch :
  forall (server : list Riven.request -> Riven.request -> result Riven.response)
         (self : Riven.RivenRequester) (releases : list release)
         (tr : list Riven.request),
    let movies := List.filter Riven.is_movie releases in
    let ids := Riven.extract_tmdb_ids movies in
    let submit := RivenSpec.submit_request self "movie" ids in
    (ids = map (fun r => Riven.str_opt_int (get (tmdb_id r)))
               (List.filter (fun r => Riven.is_movie r && RivenSpec.carries_id r)
                            releases)
     /\ if Riven.is_enabled self then
          exists result,
            Riven.add_media server self releases tr
            = (Ok result, match ids with [] => tr | _ => tr ++ [submit] end)
            /\ RivenSpec.counts result
               = match ids with
                 | [] => (0%nat, length movies)
                 | _ => match server tr submit with
                        | Ok response =>
                            if (Http.status_code response =? 200)%Z
                            then (length ids, 0%nat)
                            else (0%nat, length ids)
                        | Raise _ => (0%nat, length movies)
                        end
                 end
        else Riven.add_media server self releases tr
             = (Ok {| Riven.success := 0; Riven.failed := 0; Riven.results := [] |},
                tr))
    /\ (let mixed := [RivenSpec.item (Val "movie") (Val 1%Z);
                      RivenSpec.item (Val "tv") (Val 2%Z);
                      RivenSpec.item (Val "movie") Absent] in
        exists result,
          fst (Riven.add_media (RivenSpec.answering 200) RivenSpec.sink mixed [])
          = Ok result
          /\ RivenSpec.counts result = (1%nat, 0%nat)
          /\ (Riven.success result + Riven.failed result < length mixed)%nat).
Proof.
  intros server self releases tr. cbv zeta. split; [split|].
  - unfold Riven.extract_tmdb_ids.
    fold RivenSpec.carries_id. rewrite filter_movie_id. reflexivity.
  - unfold Riven.add_media. destruct (Riven.is_enabled self); [| reflexivity].
    cbn [negb].
    destruct (List.filter Riven.is_movie releases) as [|m movies] eqn:Hm.
    + eexists. split; reflexivity.
    + cbn [truthy truthy_list]. rewrite RivenFacts.add_items_spec.
      unfold RivenSpec.outcome.
      destruct (Riven.extract_tmdb_ids (m :: movies)) as [|id ids] eqn:Hids.
      * eexists. split; reflexivity.
      * cbv zeta. eexists. split; [reflexivity|].
        destruct (server tr _) as [response|e]; [| reflexivity].
        destruct (Http.status_code response =? 200)%Z; [reflexivity|].
        destruct (Http.status_code response =? 404)%Z; [reflexivity|].
        destruct (Http.status_code response =? 422)%Z; reflexivity.
  - eexists. split; [reflexivity | split; [reflexivity | simpl; lia]].
Qed.

(** ** Construction of the sinks *)

Lemma truthy_present (x : option string) :
  truthy x = true <-> ConfigSpec.present x.
Proof.
  unfold ConfigSpec.present. destruct x as [[|c s]|]; simpl; split;
    try discriminate.
  - intros [s [[= <-] H]]. contradiction.
  - intros _. eexists. split; [reflexivity | discriminate].
  - reflexivity.
  - intros [s [[=] _]].
Qed.

(** C8: constructing the minimal-request sink raises exactly when its API key
    is missing or empty ([ValueError]) or its section is [null]; otherwise the
    sink holds the configured key.  Constructing the bulk-ingest sink and the
    notifier raises for no section that is absent or a dictionary (only for a
    [null] one, with [AttributeError]).  The bulk-ingest sink is enabled
    exactly when the configuration gives it a non-empty key and leaves it
    with an endpoint (the default one or a non-empty configured one), which
    is when both texts it holds are non-empty; so it is not enabled when the
    key is missing or empty.  The notifier is enabled exactly when the
    configuration gives it a non-empty webhook address, so not when that is
    missing or empty. *)
Theorem C8_credentials :
  forall config : Config.config,
    match Overseerr.__init__ config with
    | Ok sink =>
        ~ ConfigSpec.key_missing (Config.overseerr config)
        /\ ConfigSpec.present (Overseerr.api_key sink)
        /\ Overseerr.api_key sink = ConfigSpec.configured_key (Config.overseerr config)
    | Raise e =>
        (ConfigSpec.key_missing (Config.overseerr config) /\ e = ValueError)
        \/ (Config.overseerr config = Null /\ e = AttributeError)
    end
    /\ match Riven.__init__ config with
       | Ok sink =>
           Config.riven config <> Null
           /\ (Riven.is_enabled sink = true
               <-> ConfigSpec.key_given (Config.riven config)
                   /\ ConfigSpec.endpoint_given (Config.riven config))
           /\ (Riven.is_enabled sink = true
               <-> ConfigSpec.present (Riven.api_url sink)
                   /\ ConfigSpec.present (Riven.api_key sink))
           /\ (ConfigSpec.key_missing (Config.riven config) ->
               Riven.is_enabled sink = false)
       | Raise e => Config.riven config = Null /\ e = AttributeError
       end
    /\ match Discord.__init__ config with
       | Ok notifier =>
           Config.discord config <> Null
           /\ (Discord.is_enabled notifier = true
               <-> ConfigSpec.webhook_given (Config.discord config))
           /\ (ConfigSpec.webhook_missing (Config.discord config) ->
               Discord.is_enabled notifier = false)
       | Raise e => Config.discord config = Null /\ e = AttributeError
       end.
Proof.
  intros [ov rv dc fl]. cbn [Config.overseerr Config.riven Config.discord].
  split; [| split].
  - unfold Overseerr.__init__. cbn [Config.overseerr].
    destruct ov as [| |[url key]]; simpl.
    + left. split; [exact I | reflexivity].
    + right. split; reflexivity.
    + destruct key as [| |[|c k]]; simpl.
      * left. split; reflexivity.
      * left. split; reflexivity.
      * left. split; reflexivity.
      * split; [discriminate|]. split; [| reflexivity].
        eexists. split; [reflexivity | discriminate].
  - unfold Riven.__init__. cbn [Config.riven].
    destruct rv as [| |[url key]]; simpl; [| split; reflexivity |].
    + split; [discriminate|]. split; [| split; [| reflexivity]].
      * unfold Riven.is_enabled. simpl. split; [discriminate|].
        intros [[c [k [[=] _]]] _].
      * unfold Riven.is_enabled. simpl. split; [discriminate|].
        intros [_ [s [[= <-] H]]]. contradiction.
    + split; [discriminate|]. split; [| split].
      * unfold Riven.is_enabled, ConfigSpec.key_given, ConfigSpec.endpoint_given.
        cbn [Riven.api_key Riven.api_url].
        rewrite andb_true_iff, !truthy_present. unfold ConfigSpec.present.
        split.
        -- intros [[k [Hk Hkn]] [u [Hu Hun]]]. split.
           ++ exists {| Config.api_url := url; Config.api_key := key |}, k.
              split; [reflexivity | split; [| exact Hkn]].
              destruct key as [| |k']; simpl in Hk; try discriminate.
              ** injection Hk as <-. contradiction.
              ** injection Hk as ->. reflexivity.
           ++ right. exists {| Config.api_url := url; Config.api_key := key |}.
              split; [reflexivity|].
              destruct url as [| |u']; simpl in Hu; try discriminate.
              ** left. reflexivity.
              ** injection Hu as ->. right. exists u. split; [reflexivity | exact Hun].
        -- intros [[c [k [[= <-] [Hk Hkn]]]] [[=] | [c' [[= <-] Hu]]]].
           simpl in Hk, Hu. subst key. split.
           ++ exists k. split; [reflexivity | exact Hkn].
           ++ destruct Hu as [-> | [u [-> Hun]]]; simpl.
              ** eexists. split; [reflexivity | discriminate].
              ** exists u. split; [reflexivity | exact Hun].
      * unfold Riven.is_enabled. cbn [Riven.api_key Riven.api_url].
        rewrite andb_true_iff, !truthy_present. tauto.
      * intros Hk. unfold Riven.is_enabled. cbn [Riven.api_key Riven.api_url].
        destruct key as [| |[|c k]]; simpl in *; try reflexivity. discriminate.
  - unfold Discord.__init__. cbn [Config.discord].
    destruct dc as [| |[hook]]; simpl; [| split; reflexivity |].
    + split; [discriminate|]. split; [| reflexivity].
      unfold Discord.is_enabled. simpl. split; [discriminate|].
      intros [d [w [[=] _]]].
    + split; [discriminate|]. split.
      * unfold Discord.is_enabled, ConfigSpec.webhook_given. simpl.
        rewrite truthy_present. unfold ConfigSpec.present. split.
        -- intros [w [Hw Hn]]. exists {| Config.webhook_url := hook |}, w.
           split; [reflexivity | split; [| exact Hn]].
           destruct hook as [| |w']; simpl in Hw; try discriminate.
           ++ injection Hw as <-. contradiction.
           ++ injection Hw as ->. reflexivity.
        -- intros [d [w [[= <-] [Hw Hn]]]]. simpl in Hw. subst hook.
           exists w. split; [reflexivity | exact Hn].
      * intros H. unfold Discord.is_enabled. simpl.
        destruct hook as [| |[|c k]]; simpl in *; try reflexivity. discriminate.
Qed.

(** The constructions on the configurations of the tests: an empty
    ["api_key"] fails the minimal-request sink and only disables the
    bulk-ingest sink, which an address and a key enable; a missing webhook
    address disables the notifier. *)
Lemma credentials_examples :
  (Riven.is_enabled <$>
     Riven.__init__
       (ConfigSpec.with_riven
          (Val {| Config.api_url := Val "http://localhost:8083";
                  Config.api_key := Val "test_riven_key" |})))
  = Ok true
  /\ Overseerr.__init__
    (ConfigSpec.with_overseerr
       (Val {| Config.api_url := Val "http://localhost:5055";
               Config.api_key := Val "" |}))
  = Raise ValueError
  /\ Overseerr.__init__ (ConfigSpec.with_overseerr Absent) = Raise ValueError
  /\ (Riven.is_enabled <$>
        Riven.__init__
          (ConfigSpec.with_riven
             (Val {| Config.api_url := Val "http://localhost:8083";
                     Config.api_key := Val "" |})))
     = Ok false
  /\ (Riven.is_enabled <$> Riven.__init__ (ConfigSpec.with_riven Absent)) = Ok false
  /\ (Discord.is_enabled <$> Discord.__init__ (ConfigSpec.with_discord Absent))
     = Ok false.
Proof. repeat split; reflexivity. Qed.

(** ** discord_notifier.py *)

Module DiscordFacts.
Import Discord DiscordSpec.

Section WithWebhook.
Variable webhook : list event -> request -> result response.
Variable utcnow : list event -> string.
Variable format_1f : Q -> string.





End WithWebhook.

End DiscordFacts.


(** ** Further properties *)

Lemma forallb_permutation {A} (p : A -> bool) (l1 l2 : list A) :
  Permutation l1 l2 -> forallb p l1 = forallb p l2.
Proof.
  induction 1 as [| x l1 l2 _ IH | x y l | l1 l2 l3 _ IH1 _ IH2]; simpl.
  - reflexivity.
  - rewrite IH. reflexivity.
  - destruct (p x), (p y); reflexivity.
  - rewrite IH1. exact IH2.
Qed.

(** X1: whenever a permuted order of the stages and the fixed order both
    return, they return the same list: the orders differ only in whether a
    stage raises. *)
Theorem stages_commute_on_return :
  forall (self : Filters.filters) (order : list Filters.stage)
         (releases out1 out2 : list release),
    Permutation order Filters.fixed_order ->
    Filters.apply_in_order self order releases = Ok out1 ->
    Filters.apply_filters self releases = Ok out2 ->
    out1 = out2.
Proof.
  intros self order releases out1 out2 Hperm H1 H2.
  rewrite StageFacts.apply_filters_fixed_order in H2.
  apply StageFacts.apply_in_order_sound in H1, H2. subst out1 out2.
  apply filter_ext. intros r. apply forallb_permutation, Hperm.
Qed.

Lemma stages_commute_on_return_witness :
  [FilterSpec.horror] = [FilterSpec.horror].
Proof.
  exact (stages_commute_on_return FilterSpec.adult_and_rating FilterSpec.rating_first
           [FilterSpec.horror] [FilterSpec.horror] [FilterSpec.horror]
           (perm_swap _ _ _) eq_refl eq_refl).
Defined.

(** X3: the filter stages never add or reorder: what [apply_filters] returns
    is the input with some releases removed. *)
Theorem apply_filters_sublist :
  forall (self : Filters.filters) (releases out : list release),
    Filters.apply_filters self releases = Ok out ->
    sublist out releases.
Proof.
  intros self releases out H.
  rewrite StageFacts.apply_filters_fixed_order in H.
  apply StageFacts.apply_in_order_sound in H. subst out.
  induction releases as [|r releases IH]; simpl; [constructor|].
  match goal with |- context [if ?b then _ else _] => destruct b end;
    [apply sublist_skip | apply sublist_cons]; exact IH.
Qed.

Lemma apply_filters_sublist_witness :
  sublist [] [FilterSpec.horror].
Proof.
  exact (apply_filters_sublist FilterSpec.rating_and_genres [FilterSpec.horror] []
           eq_refl).
Defined.

Lemma lower_all_returns (gs : list (option string)) :
  Forall (fun g => g <> None) gs ->
  exists ls, mapM (fun g => s ← deref g; Ok (lower s)) gs = Ok ls.
Proof.
  induction 1 as [|g gs Hg _ [ls IH]]; simpl.
  - exists []. reflexivity.
  - destruct g as [s|]; [| contradiction]. simpl. rewrite IH. simpl.
    eexists. reflexivity.
Qed.

Lemma Forall_filter {A} (P : A -> Prop) (p : A -> bool) (l : list A) :
  Forall P l -> Forall P (List.filter p l).
Proof.
  induction 1 as [|x l Hx _ IH]; simpl; [constructor|].
  destruct (p x); [constructor; assumption | exact IH].
Qed.

(** On testable releases, with a minimum rating that is not [null], every
    stage returns, and what it returns is testable again. *)
Lemma run_stage_returns (self : Filters.filters) (s : Filters.stage)
    (l : list release) :
  Filters.min_tmdb_rating self <> Null ->
  Forall FilterSpec.testable l ->
  exists out, Filters.run_stage self s l = Ok out /\ Forall FilterSpec.testable out.
Proof.
  intros Hmin Hl.
  assert (Hret : exists out, Filters.run_stage self s l = Ok out).
  { destruct s; unfold Filters.run_stage.
    - destruct (truthy _); eexists; reflexivity.
    - destruct (Filters.min_tmdb_rating self) as [| |m] eqn:Hm;
        [| contradiction |]; simpl.
      + eexists; reflexivity.
      + destruct (negb (Qle_bool m 0)); [| eexists; reflexivity].
        pose proof (FilterFacts.filter_by_tmdb_rating_spec self l) as H.
        destruct (Filters._filter_by_tmdb_rating self l) as [out|e];
          [eexists; reflexivity|].
        exfalso. apply List.Exists_exists in H. destruct H as [r [Hr He]].
        apply (proj1 (List.Forall_forall _ _) Hl) in Hr. destruct Hr as [Hv _].
        unfold FilterSpec.rating_test in He. rewrite Hm in He.
        destruct (vote_average r); [discriminate | contradiction | discriminate].
    - destruct (get_or (Filters.allowed_languages self) []) as [[|x xs]|];
        try (eexists; reflexivity).
      rewrite FilterFacts.filter_by_allowed_languages_spec. eexists; reflexivity.
    - destruct (get_or (Filters.excluded_genres self) []) as [[|x xs]|];
        try (eexists; reflexivity).
      pose proof (FilterFacts.filter_by_excluded_genres_spec l (x :: xs)) as H.
      destruct (Filters._filter_by_excluded_genres l (x :: xs)) as [out|e];
        [eexists; reflexivity|].
      exfalso. apply List.Exists_exists in H. destruct H as [r [Hr He]].
      apply (proj1 (List.Forall_forall _ _) Hl) in Hr. destruct Hr as [_ Hg].
      unfold FilterSpec.genre_test, Filters.lower_all in He.
      destruct (genres r) as [| |gs]; [discriminate | contradiction |].
      cbn [get_or iter mbind result_bind] in He.
      destruct (lower_all_returns gs Hg) as [ls Hls]. rewrite Hls in He.
      discriminate.
    - destruct (get_or (Filters.excluded_certifications self) []) as [[|x xs]|];
        try (eexists; reflexivity).
      rewrite FilterFacts.filter_by_excluded_certifications_spec.
      eexists; reflexivity. }
  destruct Hret as [out Hout]. exists out. split; [exact Hout|].
  apply StageFacts.run_stage_sound in Hout. subst out.
  apply Forall_filter, Hl.
Qed.

(** X4: [apply_filters] returns (it does not raise) whenever the configured
    minimum rating is not [null] and every release is testable: its
    [vote_average] is a number or missing, and its [genres] are a list of
    names or missing.  A [None] score or genre name is what makes a stage
    raise. *)
Theorem apply_filters_returns :
  forall (self : Filters.filters) (releases : list release),
    Filters.min_tmdb_rating self <> Null ->
    Forall FilterSpec.testable releases ->
    exists out, Filters.apply_filters self releases = Ok out.
Proof.
  intros self releases Hmin Hl.
  rewrite StageFacts.apply_filters_fixed_order.
  unfold Filters.apply_in_order.
  generalize dependent releases.
  induction Filters.fixed_order as [|s order IH]; intros releases Hl; simpl.
  - eexists; reflexivity.
  - destruct (run_stage_returns self s releases Hmin Hl) as [mid [-> Hmid]].
    simpl. apply IH, Hmid.
Qed.

Lemma apply_filters_returns_witness :
  exists out,
    Filters.apply_filters FilterSpec.rating_and_genres [FilterSpec.horror] = Ok out.
Proof.
  apply (apply_filters_returns FilterSpec.rating_and_genres [FilterSpec.horror]).
  - discriminate.
  - repeat constructor; discriminate.
Defined.

(** ** More on the filter engine *)

(** A stage that returns on a list returns on every list of releases taken
    from it, with what it keeps of them. *)
Lemma run_stage_restrict (self : Filters.filters) (s : Filters.stage)
    (l l' mid : list release) :
  Filters.run_stage self s l = Ok mid ->
  (forall r, In r l' -> In r l) ->
  Filters.run_stage self s l'
  = Ok (List.filter (FilterSpec.stage_keeps self s) l').
Proof.
  intros Hl Hincl.
  assert (Hret : exists mid', Filters.run_stage self s l' = Ok mid').
  { destruct s; unfold Filters.run_stage in *.
    - destruct (truthy _); eexists; reflexivity.
    - destruct (Filters.gt _ _) as [[]|e]; cbn [mbind result_bind] in *;
        [| eexists; reflexivity | discriminate].
      pose proof (FilterFacts.filter_by_tmdb_rating_spec self l) as H.
      pose proof (FilterFacts.filter_by_tmdb_rating_spec self l') as H'.
      destruct (Filters._filter_by_tmdb_rating self l); [| discriminate].
      destruct (Filters._filter_by_tmdb_rating self l') as [out|e];
        [eexists; reflexivity|].
      exfalso. destruct H as [_ H]. apply List.Exists_exists in H'.
      destruct H' as [r [Hr He]].
      destruct (proj1 (List.Forall_forall _ _) H r (Hincl r Hr)) as [b Hb].
      congruence.
    - destruct (get_or (Filters.allowed_languages self) []) as [[|x xs]|];
        try (eexists; reflexivity).
      rewrite FilterFacts.filter_by_allowed_languages_spec. eexists; reflexivity.
    - destruct (get_or (Filters.excluded_genres self) []) as [[|x xs]|];
        try (eexists; reflexivity).
      pose proof (FilterFacts.filter_by_excluded_genres_spec l (x :: xs)) as H.
      pose proof (FilterFacts.filter_by_excluded_genres_spec l' (x :: xs)) as H'.
      destruct (Filters._filter_by_excluded_genres l (x :: xs)); [| discriminate].
      destruct (Filters._filter_by_excluded_genres l' (x :: xs)) as [out|e];
        [eexists; reflexivity|].
      exfalso. destruct H as [_ H]. apply List.Exists_exists in H'.
      destruct H' as [r [Hr He]].
      destruct (proj1 (List.Forall_forall _ _) H r (Hincl r Hr)) as [b Hb].
      congruence.
    - destruct (get_or (Filters.excluded_certifications self) []) as [[|x xs]|];
        try (eexists; reflexivity).
      rewrite FilterFacts.filter_by_excluded_certifications_spec.
      eexists; reflexivity. }
  destruct Hret as [mid' Hmid']. rewrite Hmid'. f_equal.
  apply StageFacts.run_stage_sound, Hmid'.
Qed.

Lemma filter_filter_and {A} (p q : A -> bool) (l : list A) :
  List.filter q (List.filter p l) = List.filter (fun x => p x && q x) l.
Proof.
  induction l as [|x l IH]; simpl; [reflexivity|].
  destruct (p x); simpl; [destruct (q x); [f_equal|]; exact IH | exact IH].
Qed.

(** The same for the stages in any order. *)
Lemma apply_in_order_restrict (self : Filters.filters) (order : list Filters.stage) :
  forall l l' out,
    Filters.apply_in_order self order l = Ok out ->
    (forall r, In r l' -> In r l) ->
    Filters.apply_in_order self order l'
    = Ok (List.filter
            (fun r => forallb (fun s => FilterSpec.stage_keeps self s r) order) l').
Proof.
  unfold Filters.apply_in_order.
  induction order as [|s order IH]; intros l l' out Hl Hincl; simpl in *.
  - f_equal. apply StageFacts.filter_all.
  - destruct (Filters.run_stage self s l) as [mid|e] eqn:Hs; [| discriminate].
    cbn [mbind result_bind] in Hl.
    rewrite (run_stage_restrict self s l l' mid Hs Hincl).
    cbn [mbind result_bind].
    rewrite (IH mid (List.filter (FilterSpec.stage_keeps self s) l') out Hl).
    + rewrite filter_filter_and. reflexivity.
    + intros r Hr. apply filter_In in Hr. destruct Hr as [Hr Hk].
      apply StageFacts.run_stage_sound in Hs. subst mid.
      apply filter_In. split; [apply Hincl, Hr | exact Hk].
Qed.

(** X5: filtering is idempotent: a list [apply_filters] returned passes
    [apply_filters] again, unchanged and without raising. *)
Theorem apply_filters_idempotent :
  forall (self : Filters.filters) (releases out : list release),
    Filters.apply_filters self releases = Ok out ->
    Filters.apply_filters self out = Ok out.
Proof.
  intros self releases out H.
  rewrite StageFacts.apply_filters_fixed_order in *.
  pose proof (StageFacts.apply_in_order_sound _ _ _ _ H) as Hout.
  rewrite (apply_in_order_restrict self Filters.fixed_order releases out out H).
  - f_equal. rewrite Hout at 2. rewrite Hout.
    rewrite filter_filter_and. apply filter_ext. intros r.
    apply andb_diag.
  - intros r Hr. rewrite Hout in Hr. apply filter_In in Hr. apply Hr.
Qed.

Lemma apply_filters_idempotent_witness :
  Filters.apply_filters FilterSpec.adult_and_rating [FilterSpec.horror]
  = Ok [FilterSpec.horror].
Proof.
  exact (apply_filters_idempotent FilterSpec.adult_and_rating
           [FilterSpec.adult_unrated; FilterSpec.horror] [FilterSpec.horror]
           eq_refl).
Defined.

(** X6: releases are judged one by one: when [apply_filters] returns on two
    lists put together, it returns on each of them, and the result is the two
    results put together. *)
Theorem apply_filters_app :
  forall (self : Filters.filters) (l1 l2 out : list release),
    Filters.apply_filters self (l1 ++ l2) = Ok out ->
    exists out1 out2,
      Filters.apply_filters self l1 = Ok out1
      /\ Filters.apply_filters self l2 = Ok out2
      /\ out = out1 ++ out2.
Proof.
  intros self l1 l2 out H.
  rewrite !StageFacts.apply_filters_fixed_order in *.
  pose proof (StageFacts.apply_in_order_sound _ _ _ _ H) as Hout.
  eexists. eexists. split; [| split].
  - apply (apply_in_order_restrict self Filters.fixed_order (l1 ++ l2) l1 out H).
    intros r Hr. apply in_or_app. left. exact Hr.
  - apply (apply_in_order_restrict self Filters.fixed_order (l1 ++ l2) l2 out H).
    intros r Hr. apply in_or_app. right. exact Hr.
  - rewrite Hout. apply List.filter_app.
Qed.

Lemma apply_filters_app_witness :
  exists out1 out2,
    Filters.apply_filters FilterSpec.rating_and_genres [FilterSpec.horror] = Ok out1
    /\ Filters.apply_filters FilterSpec.rating_and_genres [EngineSpec.plain] = Ok out2
    /\ [EngineSpec.plain] = out1 ++ out2.
Proof.
  exact (apply_filters_app FilterSpec.rating_and_genres
           [FilterSpec.horror] [EngineSpec.plain] [EngineSpec.plain]
           eq_refl).
Defined.

(** X7: settings that ask for nothing filter nothing, whatever the releases
    hold: [apply_filters] returns its input.  An engine built from a
    configuration without a ["filters"] section is such an engine; one built
    from a [null] section raises [AttributeError] on every call. *)
Theorem nothing_asked_nothing_filtered :
  (forall (self : Filters.filters) (releases : list release),
     EngineSpec.asks_nothing self ->
     Filters.apply_filters self releases = Ok releases)
  /\ (forall (config : Config.config) (releases : list release),
        Config.filters config = Absent ->
        FilterEngine.apply_filters (FilterEngine.__init__ config) releases
        = Ok releases)
  /\ (forall (config : Config.config) (releases : list release),
        Config.filters config = Null ->
        FilterEngine.apply_filters (FilterEngine.__init__ config) releases
        = Raise AttributeError).
Proof.
  assert (H : forall (self : Filters.filters) (releases : list release),
             EngineSpec.asks_nothing self ->
             Filters.apply_filters self releases = Ok releases).
  { intros [ea mr al eg ec] releases [Ha [[m [Hm Hle]] [Hl [Hg Hc]]]].
    unfold Filters.apply_filters. simpl in *.
    rewrite Ha, Hm. cbn [mbind result_bind Filters.gt]. rewrite Hle.
    cbn [negb mbind result_bind].
    destruct al as [| |[|? ?]]; try discriminate Hl;
      destruct eg as [| |[|? ?]]; try discriminate Hg;
      destruct ec as [| |[|? ?]]; try discriminate Hc; reflexivity. }
  split; [exact H | split].
  - intros config releases Hf.
    unfold FilterEngine.apply_filters, FilterEngine.__init__. rewrite Hf. simpl.
    apply H. repeat split. exists 0%Q. split; reflexivity.
  - intros config releases Hf.
    unfold FilterEngine.apply_filters, FilterEngine.__init__. rewrite Hf.
    reflexivity.
Qed.

(** X8: the rating filter.  When it returns, no score is [None] and it has
    kept, in order, exactly the releases whose score (0 when the key is
    missing) is at or above the minimum; it raises, and then [TypeError], only
    on a non-empty list in which a score is [None] or for which the minimum
    is [null]. *)
Theorem rating_filter_behaviour :
  forall (self : Filters.filters) (releases : list release),
    match Filters._filter_by_tmdb_rating self releases with
    | Ok out =>
        (releases = [] /\ out = [])
        \/ (exists m : Q,
              get_or (Filters.min_tmdb_rating self) 0%Q = Some m
              /\ out = List.filter (EngineSpec.rated_at_least m) releases
              /\ Forall (fun r => vote_average r <> Null) releases)
    | Raise e =>
        e = TypeError
        /\ releases <> []
        /\ (Filters.min_tmdb_rating self = Null
            \/ Exists (fun r => vote_average r = Null) releases)
    end.
Proof.
  intros self releases.
  pose proof (FilterFacts.filter_by_tmdb_rating_spec self releases) as H.
  unfold FilterSpec.rating_test in H.
  destruct (Filters._filter_by_tmdb_rating self releases) as [out|e].
  - destruct H as [-> HF].
    destruct (get_or (Filters.min_tmdb_rating self) 0%Q) as [m|] eqn:Hm.
    + right. exists m. split; [reflexivity | split].
      * apply filter_ext. intros r. unfold EngineSpec.rated_at_least.
        destruct (vote_average r); reflexivity.
      * apply List.Forall_forall. intros r Hr.
        destruct (proj1 (List.Forall_forall _ _) HF r Hr) as [b Hb].
        destruct (vote_average r); [discriminate | discriminate Hb | discriminate].
    + left. destruct releases as [|r releases]; [split; reflexivity|].
      destruct (proj1 (List.Forall_forall _ _) HF r (or_introl eq_refl)) as [b Hb].
      destruct (get_or (vote_average r) 0%Q); discriminate Hb.
  - assert (He : e = TypeError /\ (Filters.min_tmdb_rating self = Null
                 \/ Exists (fun r => vote_average r = Null) releases)).
    { apply List.Exists_exists in H. destruct H as [r [Hr He]].
      destruct (Filters.min_tmdb_rating self) as [| |m]; simpl in He.
      - destruct (vote_average r) eqn:Hv; simpl in He; try discriminate He.
        injection He as <-. split; [reflexivity | right].
        apply List.Exists_exists. exists r. split; assumption.
      - destruct (get_or (vote_average r) 0%Q); injection He as <-;
          (split; [reflexivity | left; reflexivity]).
      - destruct (vote_average r) eqn:Hv; simpl in He; try discriminate He.
        injection He as <-. split; [reflexivity | right].
        apply List.Exists_exists. exists r. split; assumption. }
    destruct He as [He Hwhy]. split; [exact He | split; [| exact Hwhy]].
    intros ->. inversion H.
Qed.

Lemma lower_all_spec (gs : list (option string)) :
  match mapM (fun g => s ← deref g; Ok (lower s)) gs with
  | Ok ls => (forall x, In x ls <-> exists g, In (Some g) gs /\ x = lower g)
             /\ ~ In None gs
  | Raise e => e = AttributeError /\ In None gs
  end.
Proof.
  induction gs as [|g gs IH]; simpl.
  - split; [| tauto]. intros x. split; [intros [] | intros [g [[] _]]].
  - destruct g as [s|]; simpl; [| split; [reflexivity | left; reflexivity]].
    destruct (mapM _ gs) as [ls|e]; simpl.
    + destruct IH as [IH Hn]. split.
      * intros x. split.
        -- intros [<- | Hx]; [exists s; split; [left|]; reflexivity|].
           apply IH in Hx. destruct Hx as [g [Hg ->]].
           exists g. split; [right; exact Hg | reflexivity].
        -- intros [g [[[= ->] | Hg] ->]]; [left; reflexivity|].
           right. apply IH. exists g. split; [exact Hg | reflexivity].
      * intros [H | H]; [discriminate H | exact (Hn H)].
    + destruct IH as [-> Hn]. split; [reflexivity | right; exact Hn].
Qed.

(** X9: the genre filter.  When it returns, every genre list was readable and
    it has kept the releases that pass its test, in order; on ASCII text (the
    excluded genres and the release's genre names) the test fails exactly for
    a release that lists a genre equal, ignoring the case of letters, to an
    excluded one, as the release in the genre "Horror" when "HORROR" is
    excluded.  It raises exactly on a list in which some release has [None]
    for its genres or for a genre name. *)
Theorem genre_filter_behaviour :
  Filters._filter_by_excluded_genres [FilterSpec.horror; EngineSpec.plain] ["HORROR"]
  = Ok [EngineSpec.plain]
  /\
  forall (releases : list release) (excluded : list string),
    match Filters._filter_by_excluded_genres releases excluded with
    | Ok out =>
        exists keep : release -> bool,
          out = List.filter keep releases
          /\ (Forall (fun e => isascii e = true) excluded ->
              forall r, In r releases -> FilterSpec.ascii_genres r ->
                        (keep r = false <-> FilterSpec.genre_excluded excluded r))
          /\ Forall (fun r => ~ EngineSpec.unreadable_genres r) releases
    | Raise e =>
        Exists EngineSpec.unreadable_genres releases
        /\ (e = TypeError \/ e = AttributeError)
    end.
Proof.
  split; [reflexivity|].
  intros releases excluded.
  pose proof (FilterFacts.filter_by_excluded_genres_spec releases excluded) as H.
  assert (Htest : forall r,
            match FilterSpec.genre_test excluded r with
            | Ok b => (b = false <-> FilterSpec.genre_excluded excluded r)
                      /\ ~ EngineSpec.unreadable_genres r
            | Raise e => EngineSpec.unreadable_genres r
                         /\ (e = TypeError \/ e = AttributeError)
            end).
  { intros r. unfold FilterSpec.genre_test, Filters.lower_all,
      FilterSpec.genre_excluded, EngineSpec.unreadable_genres.
    destruct (genres r) as [| |gs]; cbn [get_or iter mbind result_bind].
    - split.
      + split; [discriminate | intros [gs [g [e [[=] _]]]]].
      + intros [H' | [gs [[=] _]]]; discriminate H'.
    - split; [left; reflexivity | left; reflexivity].
    - pose proof (lower_all_spec gs) as Hl.
      destruct (mapM _ gs) as [ls|e]; cbn [mbind result_bind].
      + destruct Hl as [Hl Hn]. split.
        * rewrite negb_false_iff, existsb_exists. split.
          -- intros [x [Hx Hin]]. apply Hl in Hx. destruct Hx as [g [Hg ->]].
             apply CaseFacts.str_in_lower in Hin. destruct Hin as [e [He Hc]].
             exists gs, g, e. repeat split; assumption.
          -- intros [gs' [g [e [[= <-] [Hg [He Hc]]]]]].
             exists (lower g). split.
             ++ apply Hl. exists g. split; [exact Hg | reflexivity].
             ++ apply CaseFacts.str_in_lower. exists e. split; assumption.
        * intros [H' | [gs' [[= <-] Hin]]]; [discriminate H' | exact (Hn Hin)].
      + destruct Hl as [-> Hn]. split; [| right; reflexivity].
        right. exists gs. split; [reflexivity | exact Hn]. }
  destruct (Filters._filter_by_excluded_genres releases excluded) as [out|e].
  - destruct H as [-> HF].
    exists (fun r => FilterSpec.holds (FilterSpec.genre_test excluded r)).
    split; [reflexivity | split].
    + intros _ r Hr _. specialize (Htest r).
      destruct (proj1 (List.Forall_forall _ _) HF r Hr) as [b Hb].
      rewrite Hb in *. simpl. apply Htest.
    + apply List.Forall_forall. intros r Hr. specialize (Htest r).
      destruct (proj1 (List.Forall_forall _ _) HF r Hr) as [b Hb].
      rewrite Hb in Htest. apply Htest.
  - apply List.Exists_exists in H. destruct H as [r [Hr He]].
    specialize (Htest r). rewrite He in Htest. destruct Htest as [Hu Hk].
    split; [| exact Hk]. apply List.Exists_exists. exists r. split; assumption.
Qed.

(** ** More on the catalog client *)

Lemma slice_to_length (n : nat) (s : string) :
  (String.length (slice_to n s) <= n)%nat.
Proof.
  revert s. induction n as [|n IH]; intros [|c s]; unfold slice_to; simpl;
    try lia.
  fold (slice_to n s). specialize (IH s). lia.
Qed.

(** X10: the shape of a release the catalog client builds: its type is
    "movie" (so the bulk-ingest sink takes it for a movie), its genres are a
    list, no key is missing (a value the catalog lacks is stored as [None], so
    no later default applies), its certification is never the empty text, and
    a date resolved from a digital entry is non-empty and at most ten
    characters long. *)
Theorem built_release_shape :
  forall (movie : Tmdb.movie) (r : release),
    ReleaseChecker.build_release movie = Ok r ->
    rtype r = Val "movie"
    /\ Riven.is_movie r = true
    /\ (exists gs, genres r = Val gs)
    /\ CatalogSpec.all_keys_present r
    /\ certification r <> Val ""
    /\ vote_average r = store (get (Tmdb.movie_vote_average movie))
    /\ overview r = store (get (Tmdb.movie_overview movie))
    /\ (Exists (fun d => d <> "") (Spec.digital_dates movie) ->
        exists d, release_date r = Val d /\ d <> ""
                  /\ (String.length d <= 10)%nat).
Proof.
  intros movie r. unfold ReleaseChecker.build_release.
  pose proof (ScanFacts.find_digital_release_info_spec movie) as H.
  destruct (ReleaseChecker._find_digital_release_info movie) as [[d c]|e];
    cbn [mbind result_bind]; [| discriminate].
  destruct H as [_ H]. rewrite ScanFacts.fold_info_step in H.
  injection H as Hd Hc. rewrite ScanFacts.fold_date_step in Hd.
  fold (Spec.digital_dates movie) in Hd.
  fold (Spec.digital_certifications movie) in Hc.
  destruct (iter _) as [gs|e]; cbn [mbind result_bind]; [| discriminate].
  intros [= <-]. cbn.
  assert (Hstore : forall A (o : option A), store o <> Absent)
    by (intros A [a|]; discriminate).
  repeat split; try apply Hstore; try discriminate.
  - eexists. reflexivity.
  - destruct c as [[|a c]|]; try discriminate. exfalso.
    assert (Hinv : forall es rec, rec <> Some "" ->
              fold_left Spec.tie_break_step es rec <> Some "").
    { induction es as [|[country cert] es IH]; intros rec Hrec; simpl;
        [exact Hrec|].
      apply IH. destruct (Spec.nonempty cert) eqn:Hn; [| exact Hrec].
      apply ScanFacts.nonempty_true in Hn.
      destruct (String.eqb country "US"); [congruence|].
      destruct rec; [exact Hrec | congruence]. }
    apply (Hinv (Spec.digital_certifications movie) None); [discriminate|].
    symmetry. exact Hc.
  - intros Hex. rewrite Hd, resolved_date_or.
    destruct (head (List.filter Spec.nonempty (Spec.digital_dates movie)))
      as [x|] eqn:Hx.
    + exists (slice_to 10 x). split; [reflexivity | split].
      * apply head_filter_holds, ScanFacts.nonempty_true in Hx.
        apply ScanFacts.slice_to_nonempty, Hx.
      * apply slice_to_length.
    + exfalso. apply List.Exists_exists in Hex. destruct Hex as [x [Hx' Hne]].
      assert (Hin : In x (List.filter Spec.nonempty (Spec.digital_dates movie))).
      { apply filter_In. split; [exact Hx' | apply ScanFacts.nonempty_true, Hne]. }
      destruct (List.filter Spec.nonempty (Spec.digital_dates movie));
        [destruct Hin | discriminate Hx].
Qed.

Lemma built_release_shape_witness :
  exists d, Val "2026-02-01" = Val d /\ d <> "" /\ (String.length d <= 10)%nat.
Proof.
  refine (proj2 (proj2 (proj2 (proj2 (proj2 (proj2 (proj2
            (built_release_shape Spec.three_countries _ eq_refl))))))) _).
  right. left. discriminate.
Defined.

(** X11: a score the catalog lacks breaks the rating filter: a release built
    from a detail document without [vote_average] holds [None], not the
    default 0, and every list that contains it makes
    [_filter_by_tmdb_rating] raise [TypeError]. *)
Theorem unrated_release_raises :
  forall (movie : Tmdb.movie) (r : release) (self : Filters.filters)
         (releases : list release),
    ReleaseChecker.build_release movie = Ok r ->
    get (Tmdb.movie_vote_average movie) = None ->
    In r releases ->
    Filters._filter_by_tmdb_rating self releases = Raise TypeError.
Proof.
  intros movie r self releases Hb Hv Hin.
  assert (Hnull : vote_average r = Null).
  { revert Hb. unfold ReleaseChecker.build_release.
    destruct (ReleaseChecker._find_digital_release_info movie) as [[d c]|e];
      cbn [mbind result_bind]; [| discriminate].
    destruct (iter _) as [gs|e]; cbn [mbind result_bind]; [| discriminate].
    intros [= <-]. cbn. rewrite Hv. reflexivity. }
  pose proof (FilterFacts.filter_by_tmdb_rating_spec self releases) as H.
  unfold FilterSpec.rating_test in H.
  destruct (Filters._filter_by_tmdb_rating self releases) as [out|e].
  - exfalso. destruct H as [_ HF].
    destruct (proj1 (List.Forall_forall _ _) HF r Hin) as [b Hb'].
    rewrite Hnull in Hb'. discriminate Hb'.
  - f_equal. apply List.Exists_exists in H. destruct H as [x [_ He]].
    unfold Filters.ge in He.
    destruct (get_or (vote_average x) 0%Q), (get_or (Filters.min_tmdb_rating self) 0%Q);
      congruence.
Qed.

Lemma unrated_release_raises_witness :
  Filters._filter_by_tmdb_rating (FilterSpec.rating_only 5)
    [FilterSpec.horror;
     {| rtype := Val "movie"; tmdb_id := Val 1%Z; title := Val "A title";
        release_date := Val "2026-01-10"; overview := Null; imdb_id := Null;
        vote_average := Null; popularity := Null; adult := Val false;
        poster_path := Null; original_language := Val "en"; genres := Val [];
        certification := Null |}]
  = Raise TypeError.
Proof.
  refine (unrated_release_raises CatalogSpec.unrated_movie _
            (FilterSpec.rating_only 5) _ eq_refl eq_refl _).
  right. left. reflexivity.
Defined.

Lemma fetch_loop (catalog : Http.request unit -> result (Http.response Tmdb.movie))
    (key : string) (items : list ReleaseChecker.discovered) :
  forall (movies : list release) (tr : list (Http.request unit)),
    Eff.each items (ReleaseChecker.fetch_one catalog key) movies tr
    = (Ok (movies ++
           omap (fun m => ReleaseChecker._get_movie_with_release_dates
                            catalog key (ReleaseChecker.id m)) items),
       tr ++ map (fun m => ReleaseChecker.detail_request key (ReleaseChecker.id m))
                 items).
Proof.
  induction items as [|m items IH]; intros movies tr; simpl.
  - unfold Eff.ret. rewrite !app_nil_r. reflexivity.
  - unfold Eff.bind at 1. unfold ReleaseChecker.fetch_one, Eff.bind,
      ReleaseChecker.get_movie.
    destruct (ReleaseChecker._get_movie_with_release_dates catalog key _) as [d|];
      unfold Eff.ret; rewrite IH, <- !app_assoc; reflexivity.
Qed.

(** X12: [get_today_releases] never raises.  Without an API key it returns
    the empty list and asks nothing.  With one it asks the discovery endpoint
    once; when that answer cannot be used it returns the empty list; otherwise
    it asks for the details of every item found, in order, and returns the
    releases of the lookups that succeeded, in order: a lookup that fails
    drops its item and nothing else. *)
Theorem get_today_releases_behaviour :
  (forall (discover : Http.request unit
                      -> result (Http.response ReleaseChecker.discover_doc))
          (catalog : Http.request unit -> result (Http.response Tmdb.movie))
          (self : ReleaseChecker.checker) (tr : list (Http.request unit)),
     ReleaseChecker.get_today_releases discover catalog self tr
     = match ReleaseChecker.api_key self with
       | Some (String c k) =>
           let key := String c k in
           let ask := ReleaseChecker.discover_request key (ReleaseChecker.today self) in
           match CatalogSpec.found (discover ask) with
           | Some items =>
               (Ok (omap (fun m => ReleaseChecker._get_movie_with_release_dates
                                     catalog key (ReleaseChecker.id m)) items),
                tr ++ ask :: map (fun m => ReleaseChecker.detail_request key
                                             (ReleaseChecker.id m)) items)
           | None => (Ok [], tr ++ [ask])
           end
       | _ => (Ok [], tr)
       end)
  /\ (let self := {| ReleaseChecker.api_key := Some "key";
                     ReleaseChecker.today := "2026-01-10" |} in
      exists r,
        ReleaseChecker.get_today_releases CatalogSpec.finds_two
          CatalogSpec.knows_two self []
        = (Ok [r],
           [ReleaseChecker.discover_request "key" "2026-01-10";
            ReleaseChecker.detail_request "key" 1;
            ReleaseChecker.detail_request "key" 2])
        /\ release_date r = Val "2026-02-01").
Proof.
  split.
  - intros discover catalog self tr. unfold ReleaseChecker.get_today_releases.
    destruct (ReleaseChecker.api_key self) as [[|c k]|]; try reflexivity.
    cbn [truthy truthy_str negb]. cbv zeta.
    unfold Eff.try_catch, ReleaseChecker._fetch_digital_releases, Eff.try_catch,
      Eff.bind, Eff.call, Eff.lift, CatalogSpec.found.
    destruct (discover _) as [response|e];
      [| destruct (is_request_exception e); reflexivity].
    destruct (Http.raise_for_status response) as [[]|e];
      [| destruct (is_request_exception e); reflexivity].
    unfold Http.json_of. destruct (Http.body response) as [data|];
      [| reflexivity].
    destruct (get_or (ReleaseChecker.discover_results data) []) as [items|];
      [| reflexivity].
    cbn [iter]. rewrite fetch_loop. rewrite <- app_assoc. reflexivity.
  - cbv zeta. eexists. split; [vm_compute; reflexivity | reflexivity].
Qed.

(** X21: [_fetch_digital_releases] asks the discovery endpoint once.  What
    the request, the status check or the decoding of the body raises as a
    [RequestException] is caught here and gives the empty list, with no
    detail request; any other exception of the request goes on to the caller.
    A document without ["results"] gives the empty list; one whose
    ["results"] is [null] raises [TypeError] past the handler; otherwise
    every item found is looked up, in order, and the lookups that succeed
    are returned, in order. *)
Theorem fetch_digital_releases_behaviour :
  forall (discover : Http.request unit
                     -> result (Http.response ReleaseChecker.discover_doc))
         (catalog : Http.request unit -> result (Http.response Tmdb.movie))
         (key target_date : string) (tr : list (Http.request unit)),
    let ask := ReleaseChecker.discover_request key target_date in
    ReleaseChecker._fetch_digital_releases discover catalog key target_date tr
    = match discover ask with
      | Raise e =>
          (if is_request_exception e then Ok [] else Raise e, tr ++ [ask])
      | Ok response =>
          if (400 <=? Http.status_code response)%Z
             && (Http.status_code response <? 600)%Z
          then (Ok [], tr ++ [ask])
          else
            match Http.body response with
            | None => (Ok [], tr ++ [ask])
            | Some data =>
                match ReleaseChecker.discover_results data with
                | Absent => (Ok [], tr ++ [ask])
                | Null => (Raise TypeError, tr ++ [ask])
                | Val items =>
                    (Ok (omap (fun m => ReleaseChecker._get_movie_with_release_dates
                                          catalog key (ReleaseChecker.id m)) items),
                     tr ++ ask :: map (fun m => ReleaseChecker.detail_request key
                                                  (ReleaseChecker.id m)) items)
                end
            end
      end.
Proof.
  intros discover catalog key target_date tr ask.
  unfold ReleaseChecker._fetch_digital_releases, Eff.try_catch, Eff.bind,
    Eff.call, Eff.lift. fold ask.
  destruct (discover ask) as [response|e];
    [| destruct (is_request_exception e); reflexivity].
  unfold Http.raise_for_status.
  destruct ((400 <=? Http.status_code response)%Z
            && (Http.status_code response <? 600)%Z); [reflexivity|].
  unfold Http.json_of. destruct (Http.body response) as [data|]; [| reflexivity].
  destruct (ReleaseChecker.discover_results data) as [| |items];
    cbn [get_or iter]; try reflexivity.
  rewrite fetch_loop. rewrite <- app_assoc. reflexivity.
Qed.

(** ** More on the notifier *)

Module NotifierFacts.
Import Discord DiscordSpec NotifierSpec.

Ltac wf_posts :=
  unfold posts_well_formed;
  repeat first [ apply List.Forall_nil
               | apply List.Forall_cons; [first [exact I | assumption] |] ].

Lemma append_length (a b : string) :
  String.length (a +:+ b) = (String.length a + String.length b)%nat.
Proof. induction a as [|c a IH]; simpl; [reflexivity | rewrite IH; reflexivity]. Qed.

Lemma slice_to_length_exact (n : nat) (s : string) :
  (n <= String.length s)%nat -> String.length (slice_to n s) = n.
Proof.
  revert s. induction n as [|n IH]; intros [|c s] H; unfold slice_to; simpl in *;
    try lia.
  fold (slice_to n s). rewrite IH; lia.
Qed.

(** The description of an embed: the overview, cut to 197 characters and
    three dots when it is longer than 200. *)
Lemma shortened_length (overview : string) :
  (String.length (if (200 <? String.length overview)%nat
                  then slice_to 197 overview +:+ "..."
                  else overview) <= 200)%nat.
Proof.
  destruct (200 <? String.length overview)%nat eqn:H.
  - apply Nat.ltb_lt in H. rewrite append_length, slice_to_length_exact by lia.
    simpl. lia.
  - apply Nat.ltb_ge in H. exact H.
Qed.

Section WithWebhook.
Variable webhook : list event -> request -> result response.
Variable utcnow : list event -> string.
Variable format_1f : Q -> string.

(** One call of [_send_release_notification]: with an overview and a score
    it posts one well-formed request and answers whether it was accepted;
    without, it raises [TypeError] before posting. *)
Lemma send_cases (self : DiscordNotifier) (r : release) (entry : flags)
    (tr : list event) :
  let run := _send_release_notification webhook utcnow format_1f self r entry tr in
  match get_or (overview r) "No description available.",
        get_or (vote_average r) 0%Q with
  | Some _, Some _ =>
      exists q,
        snd run = tr ++ [Attempt r entry; Posted q]
        /\ well_formed_post self q
        /\ fst run = match webhook (tr ++ [Attempt r entry]) q with
                     | Ok response =>
                         Ok (existsb (Z.eqb (Http.status_code response)) [200; 204]%Z)
                     | Raise e =>
                         if is_request_exception e then Ok false else Raise e
                     end
  | _, _ => run = (Raise TypeError, tr ++ [Attempt r entry])
  end.
Proof.
  cbv zeta.
  unfold _send_release_notification, Eff.bind at 1, Eff.emit.
  unfold Eff.bind at 1, Eff.lift.
  destruct (get_or (overview r) _) as [ov|]; cbn [not_none];
    [| destruct (get_or (vote_average r) 0%Q); reflexivity].
  unfold Eff.bind at 1.
  destruct (get_or (vote_average r) 0%Q) as [v|]; cbn [not_none];
    [| reflexivity].
  unfold Eff.bind at 1. unfold Eff.try_catch, Eff.bind, requests_post, Eff.call.
  eexists. split; [| split].
  - destruct (webhook _ _) as [response|e].
    + destruct (existsb _ _); cbn [Eff.ret snd]; rewrite <- app_assoc; reflexivity.
    + destruct (is_request_exception e); cbn [Eff.ret Eff.raise snd];
        rewrite <- app_assoc; reflexivity.
  - split; [reflexivity | split; [reflexivity|]].
    eexists. split; [reflexivity | split; [| reflexivity]].
    cbn [description]. apply shortened_length.
  - destruct (webhook _ _) as [response|e].
    + destruct (existsb _ _); reflexivity.
    + destruct (is_request_exception e); reflexivity.
Qed.

Lemma paced_app (a b : list event) :
  paced a = true -> paced b = true -> paced (a ++ b) = true.
Proof.
  induction a as [|ev a IH]; intros Ha Hb; [exact Hb|].
  destruct ev; simpl in *; try (apply IH; assumption).
  apply andb_true_iff in Ha. destruct Ha as [Hnext Ha].
  rewrite (IH Ha Hb), andb_true_r.
  destruct a as [|[] a]; simpl in *; try discriminate Hnext. exact Hnext.
Qed.

Lemma delivered_app (a : list event) :
  forall (before b : list event),
    delivered webhook before (a ++ b)
    = (delivered webhook before a + delivered webhook (before ++ a) b)%nat.
Proof.
  induction a as [|ev a IH]; intros before b; simpl.
  - rewrite app_nil_r. reflexivity.
  - rewrite IH, <- app_assoc. simpl. lia.
Qed.

(** One turn of the loop. *)
Lemma loop_body_summary (self : DiscordNotifier) (results : gmap string flags)
    (sent_count : nat) (r : release) (tr : list event) :
  exists (new : list event) (sent : nat),
    loop_body webhook utcnow format_1f self results sent_count r tr
    = (Ok sent, tr ++ new)
    /\ summary webhook self sent_count sent tr new.
Proof.
  unfold loop_body, summary.
  destruct (negb _ && negb _).
  - exists [], sent_count. unfold Eff.ret. rewrite app_nil_r.
    repeat split; [wf_posts | simpl; lia | simpl; lia].
  - pose proof (send_cases self r (default ∅ (results !! str_tmdb_id r)) tr) as H.
    cbv zeta in H.
    unfold Eff.try_catch, Eff.bind, Eff.emit, Eff.ret.
    destruct (_send_release_notification webhook utcnow format_1f self r _ tr)
      as [res tr'] eqn:Hrun.
    destruct (get_or (overview r) _) as [ov|];
      [destruct (get_or (vote_average r) 0%Q) as [v|] |].
    + destruct H as [q [Htr [Hq Hres]]]. cbn [fst snd] in Htr, Hres. subst tr'.
      destruct (webhook (tr ++ [Attempt r (default ∅ (results !! str_tmdb_id r))]) q)
        as [response|e] eqn:Hw; subst res.
      * eexists [Attempt r _; Posted q; Slept DISCORD_RATE_LIMIT_DELAY], _.
        split; [rewrite <- app_assoc; reflexivity|].
        split; [wf_posts | split; [| split]].
        -- cbn [delivered]. rewrite Hw. cbn [accepted].
           destruct (existsb _ _); lia.
        -- reflexivity.
        -- simpl; lia.
      * destruct (is_request_exception e) eqn:He.
        -- eexists [Attempt r _; Posted q; Slept DISCORD_RATE_LIMIT_DELAY], _.
           split; [rewrite <- app_assoc; reflexivity|].
           split; [wf_posts | split; [| split]].
           ++ cbn [delivered]. rewrite Hw. cbn [accepted]. lia.
           ++ reflexivity.
           ++ simpl; lia.
        -- eexists [Attempt r _; Posted q], _.
           split; [reflexivity|].
           split; [wf_posts | split; [| split]].
           ++ cbn [delivered]. rewrite Hw. cbn [accepted]. lia.
           ++ intros Hf. rewrite (Hf _ _ _ Hw) in He. discriminate He.
           ++ simpl; lia.
    + injection H as -> ->. eexists [Attempt r _], _.
      split; [reflexivity|].
      repeat split; [wf_posts | simpl; lia | simpl; lia].
    + injection H as -> ->. eexists [Attempt r _], _.
      split; [reflexivity|].
      repeat split; [wf_posts | simpl; lia | simpl; lia].
Qed.

Lemma summary_app (self : DiscordNotifier) (s0 s1 s2 : nat)
    (before a b : list event) :
  summary webhook self s0 s1 before a -> summary webhook self s1 s2 (before ++ a) b ->
  summary webhook self s0 s2 before (a ++ b).
Proof.
  intros [Ha1 [Ha2 [Ha3 Ha4]]] [Hb1 [Hb2 [Hb3 Hb4]]].
  split; [apply List.Forall_app; split; assumption | split; [| split]].
  - rewrite delivered_app. lia.
  - intros Hf. apply paced_app; auto.
  - unfold posts, attempts in *. rewrite !flat_map_app, !length_app. lia.
Qed.

(** The loop. *)
Lemma loop_summary (self : DiscordNotifier) (results : gmap string flags)
    (releases : list release) :
  forall (sent_count : nat) (tr : list event),
    exists (new : list event) (sent : nat),
      Eff.each releases (loop_body webhook utcnow format_1f self results)
        sent_count tr
      = (Ok sent, tr ++ new)
      /\ summary webhook self sent_count sent tr new.
Proof.
  induction releases as [|r releases IH]; intros sent_count tr.
  - exists [], sent_count. cbn. unfold Eff.ret. rewrite app_nil_r.
    split; [reflexivity|].
    repeat split; [wf_posts | simpl; lia | simpl; lia].
  - cbn [Eff.each]. unfold Eff.bind.
    destruct (loop_body_summary self results sent_count r tr)
      as [a [mid [-> Ha]]].
    destruct (IH mid (tr ++ a)) as [b [sent [-> Hb]]].
    exists (a ++ b), sent. split; [rewrite app_assoc; reflexivity|].
    eapply summary_app; eassumption.
Qed.
End WithWebhook.

End NotifierFacts.

(** X13: what the notifier sends is well formed: every request a run of
    [send_release_notifications] adds to the trace is a POST to the webhook
    address with one embed, the fields "Rating" and "Added to", and a
    description of at most 200 characters; the run never raises, and it sends
    at most one request for each attempt. *)
Theorem notifications_well_formed :
  forall (webhook : list Discord.event -> Discord.request -> result Discord.response)
         (utcnow : list Discord.event -> string) (format_1f : Q -> string)
         (self : Discord.DiscordNotifier) (releases : list release)
         (results : gmap string (gmap string bool)) (tr : list Discord.event),
    exists (new : list Discord.event) (sent : nat),
      Discord.send_release_notifications webhook utcnow format_1f
        self releases results tr = (Ok sent, tr ++ new)
      /\ NotifierSpec.posts_well_formed self new
      /\ (length (NotifierSpec.posts new) <= length (DiscordSpec.attempts new))%nat.
Proof.
  intros webhook utcnow format_1f self releases results tr.
  unfold Discord.send_release_notifications.
  destruct (negb (Discord.is_enabled self)).
  - exists [], 0%nat. unfold Eff.ret. rewrite app_nil_r.
    repeat split; [constructor | simpl; lia].
  - destruct (NotifierFacts.loop_summary webhook utcnow format_1f self results
                releases 0%nat tr) as [new [sent [Hrun [Hwf [_ [_ Hle]]]]]].
    exists new, sent. repeat split; assumption.
Qed.

(** X14: the count [send_release_notifications] returns is the number of
    requests of the run that the webhook answered with 200 or 204. *)
Theorem sent_count_is_accepted_posts :
  forall (webhook : list Discord.event -> Discord.request -> result Discord.response)
         (utcnow : list Discord.event -> string) (format_1f : Q -> string)
         (self : Discord.DiscordNotifier) (releases : list release)
         (results : gmap string (gmap string bool)) (tr : list Discord.event),
    exists new : list Discord.event,
      Discord.send_release_notifications webhook utcnow format_1f
        self releases results tr
      = (Ok (NotifierSpec.delivered webhook tr new), tr ++ new).
Proof.
  intros webhook utcnow format_1f self releases results tr.
  unfold Discord.send_release_notifications.
  destruct (negb (Discord.is_enabled self)).
  - exists []. unfold Eff.ret. rewrite app_nil_r. reflexivity.
  - destruct (NotifierFacts.loop_summary webhook utcnow format_1f self results
                releases 0%nat tr) as [new [sent [Hrun [_ [Hsent _]]]]].
    exists new. rewrite Hrun, Hsent. reflexivity.
Qed.

(** X15: the rate limit is kept: when the webhook fails only with request
    exceptions, every request of a run is followed at once by the pause of
    [DISCORD_RATE_LIMIT_DELAY], so no two requests are sent without a pause
    between them. *)
Theorem requests_are_paced :
  forall (webhook : list Discord.event -> Discord.request -> result Discord.response)
         (utcnow : list Discord.event -> string) (format_1f : Q -> string)
         (self : Discord.DiscordNotifier) (releases : list release)
         (results : gmap string (gmap string bool)) (tr : list Discord.event),
    NotifierSpec.fails_as_requests webhook ->
    exists (new : list Discord.event) (sent : nat),
      Discord.send_release_notifications webhook utcnow format_1f
        self releases results tr = (Ok sent, tr ++ new)
      /\ NotifierSpec.paced new = true.
Proof.
  intros webhook utcnow format_1f self releases results tr Hf.
  unfold Discord.send_release_notifications.
  destruct (negb (Discord.is_enabled self)).
  - exists [], 0%nat. unfold Eff.ret. rewrite app_nil_r. split; reflexivity.
  - destruct (NotifierFacts.loop_summary webhook utcnow format_1f self results
                releases 0%nat tr) as [new [sent [Hrun [_ [_ [Hp _]]]]]].
    exists new, sent. split; [exact Hrun | exact (Hp Hf)].
Qed.

Lemma requests_are_paced_witness :
  exists (new : list Discord.event) (sent : nat),
    Discord.send_release_notifications NotifierSpec.accepts_first
      (fun _ => "2026-01-10T00:00:00") (fun _ => "7.5")
      DiscordSpec.notifier
      [DiscordSpec.numbered (Val 123%Z); DiscordSpec.numbered (Val 456%Z)]
      NotifierSpec.all_accepted [] = (Ok sent, [] ++ new)
    /\ NotifierSpec.paced new = true.
Proof.
  apply requests_are_paced.
  intros tr q e. unfold NotifierSpec.accepts_first.
  destruct (NotifierSpec.posts tr); discriminate.
Defined.

(** X16: a release the catalog gave no overview or no score is never
    announced: the release built from such a detail document holds [None]
    there, not the default, and a turn of the notifier's loop on it attempts
    the delivery but posts nothing and leaves the count as it is. *)
Theorem incomplete_release_not_posted :
  forall (movie : Tmdb.movie) (r : release)
         (webhook : list Discord.event -> Discord.request -> result Discord.response)
         (utcnow : list Discord.event -> string) (format_1f : Q -> string)
         (self : Discord.DiscordNotifier)
         (results : gmap string (gmap string bool)) (sent_count : nat)
         (tr : list Discord.event),
    ReleaseChecker.build_release movie = Ok r ->
    get (Tmdb.movie_overview movie) = None
    \/ get (Tmdb.movie_vote_average movie) = None ->
    exists new : list Discord.event,
      Discord.loop_body webhook utcnow format_1f self results sent_count r tr
      = (Ok sent_count, tr ++ new)
      /\ NotifierSpec.posts new = [].
Proof.
  intros movie r webhook utcnow format_1f self results sent_count tr Hb Hmiss.
  assert (Hnone : get_or (overview r) "No description available." = None
                  \/ get_or (vote_average r) 0%Q = None).
  { revert Hb. unfold ReleaseChecker.build_release.
    destruct (ReleaseChecker._find_digital_release_info movie) as [[d c]|e];
      cbn [mbind result_bind]; [| discriminate].
    destruct (iter _) as [gs|e]; cbn [mbind result_bind]; [| discriminate].
    intros [= <-]. cbn.
    destruct Hmiss as [-> | ->]; [left | right]; reflexivity. }
  unfold Discord.loop_body.
  destruct (negb _ && negb _).
  - exists []. unfold Eff.ret. rewrite app_nil_r. split; reflexivity.
  - pose proof (NotifierFacts.send_cases webhook utcnow format_1f self r
                  (default ∅ (results !! Discord.str_tmdb_id r)) tr) as H.
    cbv zeta in H. unfold Eff.try_catch, Eff.bind.
    destruct (get_or (overview r) _) as [ov|];
      [destruct (get_or (vote_average r) 0%Q) as [v|] |];
      try (rewrite H; eexists; split; reflexivity).
    destruct Hnone as [Hn | Hn]; discriminate Hn.
Qed.

Lemma incomplete_release_not_posted_witness :
  exists new : list Discord.event,
    Discord.loop_body DiscordSpec.accepting (fun _ => "2026-01-10T00:00:00")
      (fun _ => "7.5") DiscordSpec.notifier NotifierSpec.one_accepted 0%nat
      {| rtype := Val "movie"; tmdb_id := Val 1%Z; title := Val "A title";
         release_date := Val "2026-01-10"; overview := Null; imdb_id := Null;
         vote_average := Null; popularity := Null; adult := Val false;
         poster_path := Null; original_language := Val "en"; genres := Val [];
         certification := Null |} []
    = (Ok 0%nat, [] ++ new)
    /\ NotifierSpec.posts new = [].
Proof.
  exact (incomplete_release_not_posted CatalogSpec.unrated_movie _
           DiscordSpec.accepting (fun _ => "2026-01-10T00:00:00") (fun _ => "7.5")
           DiscordSpec.notifier NotifierSpec.one_accepted 0%nat []
           eq_refl (or_introl eq_refl)).
Defined.

(** ** More on the sinks *)

(** X17: the bulk-ingest sink is all or nothing on every input: [add_media]
    never raises, sends at most one request (a POST that carries the sink's
    key as ["x-api-key"]), reports at most one result entry, never reports
    both successes and failures, and never counts more than the releases it
    was given. *)
Theorem add_media_all_or_nothing :
  forall (server : list Riven.request -> Riven.request -> result Riven.response)
         (self : Riven.RivenRequester) (releases : list release)
         (tr : list Riven.request),
    exists (result : Riven.batch_result) (new : list Riven.request),
      Riven.add_media server self releases tr = (Ok result, tr ++ new)
      /\ (length new <= 1)%nat
      /\ Forall (fun q => Http.meth q = Http.POST
                          /\ SinkSpec.carries_header "x-api-key" (Riven.api_key self) q)
                new
      /\ (Riven.success result = 0%nat \/ Riven.failed result = 0%nat)
      /\ (Riven.success result + Riven.failed result <= length releases)%nat
      /\ (length (Riven.results result) <= 1)%nat.
Proof.
  intros server self releases tr. unfold Riven.add_media.
  destruct (negb (Riven.is_enabled self)).
  - eexists _, []. unfold Eff.ret. rewrite app_nil_r.
    split; [reflexivity|]. simpl. repeat split; try lia; constructor.
  - assert (Hm : (length (List.filter Riven.is_movie releases) <= length releases)%nat)
      by apply List.filter_length_le.
    destruct (List.filter Riven.is_movie releases) as [|m movies] eqn:Hmovies.
    + eexists _, []. unfold Eff.ret. rewrite app_nil_r.
      split; [reflexivity|]. simpl. repeat split; try lia; constructor.
    + cbn [truthy truthy_list]. rewrite RivenFacts.add_items_spec.
      pose proof (RivenFacts.extract_tmdb_ids_length (m :: movies)) as Hlen.
      assert (Hids : (length (Riven.extract_tmdb_ids (m :: movies))
                      <= length (m :: movies))%nat)
        by (rewrite Hlen; apply List.filter_length_le).
      destruct (Riven.extract_tmdb_ids (m :: movies)) as [|i ids] eqn:Hext.
      * eexists _, []. rewrite app_nil_r. split; [reflexivity|].
        cbn [Riven.success Riven.failed Riven.results length] in *.
        repeat split; try lia; constructor.
      * cbv zeta. eexists _, [_]. split; [reflexivity|].
        split; [simpl; lia|].
        split; [constructor; [split; [reflexivity | left; reflexivity] | constructor]|].
        unfold RivenSpec.outcome. rewrite Hext.
        destruct (server tr _) as [response|e].
        -- destruct (Http.status_code response =? 200)%Z;
             [| destruct (Http.status_code response =? 404)%Z;
                [| destruct (Http.status_code response =? 422)%Z]];
             cbn [Riven.success Riven.failed Riven.results length] in *;
             repeat split; lia.
        -- cbn [Riven.success Riven.failed Riven.results length] in *.
           repeat split; lia.
Qed.

(** X18: the health check never raises and never sends the API key: it is
    one GET of [api_url + "/health"] without headers; it reports healthy
    exactly when the answer's status is 200, unhealthy with the code for any
    other status, and unreachable when the request fails. *)
Theorem get_status_behaviour :
  forall (server : list Riven.request -> Riven.request -> result Riven.response)
         (self : Riven.RivenRequester) (tr : list Riven.request),
    exists health : Riven.health,
      Riven.get_status server self tr
      = (Ok health, tr ++ [SinkSpec.health_request self])
      /\ (health = Riven.Healthy
          <-> exists response,
                server tr (SinkSpec.health_request self) = Ok response
                /\ Http.status_code response = 200%Z)
      /\ (forall e, server tr (SinkSpec.health_request self) = Raise e ->
                    health = Riven.Unreachable (Riven.StrOf e))
      /\ (forall response,
            server tr (SinkSpec.health_request self) = Ok response ->
            Http.status_code response <> 200%Z ->
            health = Riven.Unhealthy (Http.status_code response)).
Proof.
  intros server self tr.
  unfold Riven.get_status, Eff.try_catch, Eff.bind, Riven.requests_get, Eff.call.
  fold (SinkSpec.health_request self).
  destruct (server tr (SinkSpec.health_request self)) as [response|e].
  - destruct (Z.eqb_spec (Http.status_code response) 200) as [Hs|Hs].
    + eexists. split; [reflexivity | split; [| split]].
      * split; [intros _; exists response; split; [reflexivity | exact Hs] | reflexivity].
      * discriminate.
      * intros r' [= <-] Hn. contradiction.
    + eexists. split; [reflexivity | split; [| split]].
      * split; [discriminate | intros [r' [[= <-] H]]; contradiction].
      * discriminate.
      * intros r' [= <-] _. reflexivity.
  - eexists. split; [reflexivity | split; [| split]].
    + split; [discriminate | intros [r' [[=] _]]].
    + intros e' [= <-]. reflexivity.
    + discriminate.
Qed.

(** X19: [test_webhook] never raises; a notifier that is not enabled answers
    false and sends nothing; an enabled one sends one POST to the webhook
    address and answers true exactly when the status is 200 or 204. *)
Theorem test_webhook_behaviour :
  forall (webhook : list (Http.request Discord.test_payload)
                    -> Http.request Discord.test_payload -> result Discord.response)
         (utcnow : list (Http.request Discord.test_payload) -> string)
         (self : Discord.DiscordNotifier)
         (tr : list (Http.request Discord.test_payload)),
    if Discord.is_enabled self then
      exists (ok : bool) (q : Http.request Discord.test_payload),
        Discord.test_webhook webhook utcnow self tr = (Ok ok, tr ++ [q])
        /\ Http.meth q = Http.POST
        /\ Http.url q = fmt (Discord.webhook_url self)
        /\ (ok = true <-> exists response,
                            webhook tr q = Ok response
                            /\ In (Http.status_code response) [200; 204]%Z)
    else Discord.test_webhook webhook utcnow self tr = (Ok false, tr).
Proof.
  intros webhook utcnow self tr. unfold Discord.test_webhook.
  destruct (Discord.is_enabled self); [| reflexivity]. cbn [negb].
  unfold Eff.try_catch, Eff.bind, Eff.call.
  match goal with
  | |- context [webhook tr ?q] => destruct (webhook tr q) as [response|e] eqn:Hw
  end.
  - destruct (existsb _ _) eqn:Hex; eexists _, _;
      (split; [reflexivity | split; [reflexivity | split; [reflexivity|]]]).
    + split; [intros _ | reflexivity]. exists response. split; [exact Hw|].
      apply existsb_exists in Hex. destruct Hex as [z [Hz He]].
      apply Z.eqb_eq in He. rewrite He. exact Hz.
    + split; [discriminate|]. intros [r' [Hr' Hin]].
      rewrite Hw in Hr'. injection Hr' as <-.
      assert (existsb (Z.eqb (Http.status_code response)) [200; 204]%Z = true).
      { apply existsb_exists. eexists. split; [exact Hin | apply Z.eqb_refl]. }
      congruence.
  - eexists _, _.
    split; [reflexivity | split; [reflexivity | split; [reflexivity|]]].
    split; [discriminate|]. intros [r' [Hr' _]]. rewrite Hw in Hr'. discriminate.
Qed.

Lemma request_media_run
    (server : list Overseerr.request -> Overseerr.request -> result Overseerr.response)
    (self : Overseerr.OverseerrRequester) (release : release)
    (tr : list Overseerr.request) (id : Z) :
  get (tmdb_id release) = Some id -> id <> 0%Z ->
  Overseerr.request_media server self release tr
  = if OverseerrSpec.reports_requested
         (server tr (OverseerrSpec.status_request self id))
    then (Ok false, tr ++ [OverseerrSpec.status_request self id])
    else (Ok (SinkSpec.accepted_codes [200; 201; 409]%Z
                (server (tr ++ [OverseerrSpec.status_request self id])
                        (OverseerrSpec.submit_request self id))),
          tr ++ [OverseerrSpec.status_request self id;
                 OverseerrSpec.submit_request self id]).
Proof.
  intros Hid Hnz. unfold Overseerr.request_media. rewrite Hid.
  unfold Eff.try_catch, Eff.bind at 1.
  assert (truthy id = true) as Ht.
  { unfold truthy, truthy_Z. destruct (Z.eqb_spec id 0); [contradiction | reflexivity]. }
  rewrite Ht. cbn [negb]. unfold Eff.bind at 1.
  rewrite OverseerrFacts.is_already_requested_spec.
  destruct (OverseerrSpec.reports_requested _); [reflexivity|].
  unfold Eff.bind, Overseerr.requests_post, Eff.call, Eff.ret,
    SinkSpec.accepted_codes.
  fold (OverseerrSpec.submit_request self id).
  rewrite <- app_assoc. cbn [app].
  destruct (server _ (OverseerrSpec.submit_request self id)) as [response|e].
  - cbn [existsb]. rewrite orb_false_r.
    destruct (Http.status_code response =? 200)%Z; cbn [orb]; [reflexivity|].
    destruct (Http.status_code response =? 201)%Z; cbn [orb]; [reflexivity|].
    destruct (Http.status_code response =? 409)%Z; reflexivity.
  - destruct (is_request_exception e); reflexivity.
Qed.

(** X20: the requests of the minimal-request sink: a release without a
    [tmdb_id] (missing, [None] or 0) is refused without any request;
    otherwise [request_media] sends the status check and then at most the
    submission, never the submission alone; every request carries the sink's
    key as ["X-Api-Key"]; and it answers true only when the last request it
    sent is the submission. *)
Theorem request_media_requests :
  forall (server : list Overseerr.request -> Overseerr.request
                   -> result Overseerr.response)
         (self : Overseerr.OverseerrRequester) (release : release)
         (tr : list Overseerr.request),
    exists (ok : bool) (new : list Overseerr.request),
      Overseerr.request_media server self release tr = (Ok ok, tr ++ new)
      /\ match get (tmdb_id release) with
         | Some id =>
             if (id =? 0)%Z then new = [] /\ ok = false
             else new = [OverseerrSpec.status_request self id]
                  \/ new = [OverseerrSpec.status_request self id;
                            OverseerrSpec.submit_request self id]
         | None => new = [] /\ ok = false
         end
      /\ Forall (SinkSpec.carries_header "X-Api-Key" (Overseerr.api_key self)) new
      /\ (ok = true ->
          exists id, last new = Some (OverseerrSpec.submit_request self id)).
Proof.
  intros server self release tr.
  destruct (get (tmdb_id release)) as [id|] eqn:Hid.
  - destruct (Z.eqb_spec id 0) as [Hz|Hnz].
    + exists false, []. unfold Overseerr.request_media. rewrite Hid, Hz.
      cbn. rewrite app_nil_r. repeat split; [constructor | discriminate].
    + rewrite (request_media_run server self release tr id Hid Hnz).
      destruct (OverseerrSpec.reports_requested _).
      * exists false, [OverseerrSpec.status_request self id].
        split; [reflexivity | split; [left; reflexivity | split]].
        -- repeat constructor.
        -- discriminate.
      * eexists _, [OverseerrSpec.status_request self id;
                    OverseerrSpec.submit_request self id].
        split; [reflexivity | split; [right; reflexivity | split]].
        -- repeat constructor.
        -- intros _. exists id. reflexivity.
  - exists false, []. unfold Overseerr.request_media. rewrite Hid.
    cbn. rewrite app_nil_r. repeat split; [constructor | discriminate].
Qed.

(** X2: the scan prefers "US": the certification
    [_find_digital_release_info] returns is the last non-empty "US"
    certification among the digital entries when there is one, and otherwise
    the first non-empty certification of a digital entry in catalog order
    ([None] when there is none). *)
Theorem certification_prefers_us :
  forall (movie : Tmdb.movie) (date certification : option string),
    ReleaseChecker._find_digital_release_info movie = Ok (date, certification) ->
    certification
    = match last (List.filter
                    (fun e => String.eqb (fst e) "US" && Spec.nonempty (snd e))
                    (Spec.digital_certifications movie)) with
      | Some e => Some (snd e)
      | None =>
          option_map snd
            (head (List.filter (fun e => Spec.nonempty (snd e))
                               (Spec.digital_certifications movie)))
      end.
Proof.
  intros movie date certification Hrun.
  pose proof (ScanFacts.find_digital_release_info_spec movie) as H.
  rewrite Hrun in H. destruct H as [_ H].
  rewrite ScanFacts.fold_info_step in H. injection H as _ ->.
  apply tie_break_closed.
Qed.

Lemma certification_prefers_us_witness :
  Some "PG-13" = Some "PG-13".
Proof.
  exact (certification_prefers_us Spec.three_countries (Some "2026-02-01")
           (Some "PG-13") eq_refl).
Defined.
